(** * Job Exposure Dashboard (app.py): data cleaning, filtering, derivations
    and the chat session, as a shallow embedding.

  The script is a Streamlit page driven by pandas.  The embedding keeps the
  script's own structure: a data frame is a list of column names and a list
  of labelled rows, Python strings are [string]s of code points below 256,
  a float64 that is not NaN is a value of an abstract type [num], and NaN
  is the separate cell [CNaN].  Library calls (pandas, re, g4f) are
  modelled after their documented behaviour. *)

From stdpp Require Import base list strings sorting.
From Stdlib Require Import Ascii String Sorted Permutation QArith.

Close Scope Q_scope.
Local Open Scope string_scope.
Local Open Scope list_scope.
Local Open Scope nat_scope.

(** ** Python string operations used by the cleaning step *)

Module PyStr.

(** [str.isspace] on one code point below 256: TAB..CR, FS..US, SPACE,
    NEL and NBSP. *)
Definition isspace (c : ascii) : bool :=
  let n := nat_of_ascii c in
  (((9 <=? n) && (n <=? 13)) || ((28 <=? n) && (n <=? 32))
   || (n =? 133) || (n =? 160))%nat.

Definition quote : ascii := Ascii.ascii_of_nat 34.

Definition is_quote (c : ascii) : bool := Ascii.eqb c quote.

(** [s.lstrip()] *)
Fixpoint lstrip (s : string) : string :=
  match s with
  | EmptyString => EmptyString
  | String c r => if isspace c then lstrip r else s
  end.

(** [s.rstrip()] *)
Fixpoint rstrip (s : string) : string :=
  match s with
  | EmptyString => EmptyString
  | String c r =>
      match rstrip r with
      | EmptyString => if isspace c then EmptyString else String c EmptyString
      | r' => String c r'
      end
  end.

(** [s.strip()] *)
Definition strip (s : string) : string := rstrip (lstrip s).

(** [s.replace(DQ, '')], where DQ is the one-character string holding the
    double quote (code point 34): every occurrence goes. *)
Fixpoint remove_quotes (s : string) : string :=
  match s with
  | EmptyString => EmptyString
  | String c r => if is_quote c then remove_quotes r else String c (remove_quotes r)
  end.

(** Where [$] matches (no MULTILINE flag): at the end of the string, and
    just before a newline that ends the string. *)
Definition at_dollar (rest : string) : bool :=
  match rest with
  | EmptyString => true
  | String c EmptyString => (nat_of_ascii c =? 10)%nat
  | _ => false
  end.

(** [re.sub(r'^DQ|DQ$', '', s)] (DQ again the double quote), scanning
    left to right.  [bol] tells whether
    the scan stands at position 0, the only place where [^] matches.  Both
    alternatives consume exactly one quote, so a match at the current
    character deletes it and the scan goes on behind it. *)
Fixpoint re_sub_scan (bol : bool) (s : string) : string :=
  match s with
  | EmptyString => EmptyString
  | String c r =>
      if is_quote c && (bol || at_dollar r)
      then re_sub_scan false r
      else String c (re_sub_scan false r)
  end.

Definition re_sub_quote_ends (s : string) : string := re_sub_scan true s.

(** [col.strip().replace(DQ, '')], line 37. *)
Definition clean_header (col : string) : string := remove_quotes (strip col).

(** [.str.strip().str.replace(r'^DQ|DQ$', '', regex=True)] on one string,
    line 40. *)
Definition clean_str (s : string) : string := re_sub_quote_ends (strip s).

End PyStr.

(** A string wrapped in one pair of quote characters. *)
Definition quoted (s : string) : string :=
  String PyStr.quote (s +:+ String PyStr.quote EmptyString).

(** ** Exceptions and fallible results *)

(** The exceptions the modelled statements can raise. *)
Inductive PyError :=
| KeyError (key : string)        (* a column label that is not there *)
| AttributeError (what : string) (* [.dtype] asked of a DataFrame *)
| TypeError (what : string)      (* an operation refused for the dtype *)
| ValueError (what : string).    (* a frame indexed through doubled labels *)

Inductive result (A : Type) :=
| Ok (a : A)
| Raise (e : PyError).
Arguments Ok {A} a.
Arguments Raise {A} e.

#[global] Instance result_ret : MRet result := fun A a => Ok a.
#[global] Instance result_fmap : FMap result := fun A B f m =>
  match m with
  | Ok a => Ok (f a)
  | Raise e => Raise e
  end.
#[global] Instance result_bind : MBind result := fun A B f m =>
  match m with
  | Ok a => f a
  | Raise e => Raise e
  end.

(** ** Data frames *)

Section Frame.

(** A float64 (or int64) value that is not NaN. *)
Context {num : Type}.

(** One cell of a frame as [read_csv] leaves it: a Python [str], a number,
    or NaN for a missing value.  Booleans are not modelled: a column of
    True and False with a gap is of dtype object without a string in it,
    and the [.str] accessor of line 40 raises an AttributeError on it.  So
    the theorems say what follows when the loader returns, not that it
    returns for given labels. *)
Inductive cell :=
  | CStr (s : string)
  | CNum (x : num)
  | CNaN.

(** A frame: the column labels and the rows, each row carrying its index
    label (the row number [read_csv] gave it) and its cells by column
    position.  A position a row does not reach is a missing value. *)
Record DataFrame := {
  columns : list string;
  rows : list (nat * list cell)
}.

Definition cell_at (j : nat) (r : nat * list cell) : cell :=
  default CNaN (r.2 !! j).

Definition is_str (c : cell) : bool :=
  match c with CStr _ => true | _ => false end.

Definition notna (c : cell) : bool :=
  match c with CNaN => false | _ => true end.

(** The cells of the column at position [j], top to bottom. *)
Definition series (j : nat) (df : DataFrame) : list cell :=
  map (cell_at j) (rows df).

(** [df[col].dtype == 'object']: the column holds Python strings (pandas
    2, where a column of strings has dtype object).  A column [read_csv]
    parsed as numbers throughout is float64 or int64; so is a column of
    missing values only, and on such a column, as on a frame without rows,
    the statements guarded by this test change nothing anyway. *)
Definition dtype_is_object (j : nat) (df : DataFrame) : bool :=
  existsb is_str (series j df).

(** [df[col] = f(df[col])] for an element-wise [f]. *)
Definition assign (j : nat) (f : cell → cell) (df : DataFrame) : DataFrame :=
  {| columns := columns df;
     rows := map (λ r, (r.1, alter f j r.2)) (rows df) |}.

(** Positions of the label [col] among [cols], counted from [from]. *)
Fixpoint positions (col : string) (cols : list string) (from : nat) : list nat :=
  match cols with
  | [] => []
  | c :: cs =>
      if String.eqb c col then from :: positions col cs (S from)
      else positions col cs (S from)
  end.

(** What [df[col]] is: nothing (KeyError), a Series, or, for a label
    that occurs more than once, a DataFrame. *)
Inductive located := Absent | Unique (j : nat) | Duplicated.

Definition locate (col : string) (df : DataFrame) : located :=
  match positions col (columns df) 0 with
  | [] => Absent
  | [j] => Unique j
  | _ => Duplicated
  end.

End Frame.

Arguments cell : clear implicits.
Arguments DataFrame : clear implicits.

(** ** The loader: [load_and_clean_data], lines 32-49 *)

Section Loader.

Context {num : Type}.

(** What [pd.to_numeric(..., errors='coerce')] makes of one string: the
    number it parses to, or [None] where pandas puts NaN. *)
Context (parse_num : string → option num).

Local Abbreviation cell := (cell num).
Local Abbreviation DataFrame := (DataFrame num).

(** Line 37: [df.columns = [col.strip().replace(DQ, '') for col in df.columns]]. *)
Definition clean_columns (df : DataFrame) : DataFrame :=
  {| columns := map PyStr.clean_header (columns df); rows := rows df |}.

(** One element under [.str.strip().str.replace(...)]: the [.str] methods
    give NaN for an element that is not a string. *)
Definition str_clean_cell (c : cell) : cell :=
  match c with
  | CStr s => CStr (PyStr.clean_str s)
  | _ => CNaN
  end.

(** Lines 39-40, one turn of the loop for the column at position [j]. *)
Definition clean_step (df : DataFrame) (j : nat) : DataFrame :=
  if dtype_is_object j df then assign j str_clean_cell df else df.

(** Lines 38-40: the loop over [df.columns].  [df[col]] is a DataFrame
    when the label occurs twice, and a DataFrame has no [dtype]. *)
Fixpoint clean_values (cols : list string) (df : DataFrame) : result DataFrame :=
  match cols with
  | [] => Ok df
  | col :: rest =>
      match locate col df with
      | Unique j => clean_values rest (clean_step df j)
      | Duplicated => Raise (AttributeError "'DataFrame' object has no attribute 'dtype'")
      | Absent => Raise (KeyError col)
      end
  end.

(** One element under [pd.to_numeric(..., errors='coerce')]. *)
Definition to_numeric_cell (c : cell) : cell :=
  match c with
  | CStr s => match parse_num s with Some x => CNum x | None => CNaN end
  | _ => c
  end.

(** Lines 43 and 44: [df[col] = pd.to_numeric(df[col], errors='coerce')]. *)
Definition to_numeric_column (col : string) (df : DataFrame) : result DataFrame :=
  match locate col df with
  | Unique j => Ok (assign j to_numeric_cell df)
  | Absent => Raise (KeyError col)
  | Duplicated => Raise (TypeError "arg must be a list, tuple, 1-d array, or Series")
  end.

(** The positions of the labels of [subset]; a label that is missing is a
    KeyError. *)
Fixpoint subset_positions (subset : list string) (df : DataFrame) : result (list nat) :=
  match subset with
  | [] => Ok []
  | col :: rest =>
      match locate col df with
      | Unique j => js ← subset_positions rest df; Ok (j :: js)
      | _ => Raise (KeyError col)
      end
  end.

(** The mask of [dropna]: no missing value at any of the positions. *)
Definition complete_at (js : list nat) (r : nat * list cell) : bool :=
  forallb (λ j, notna (cell_at j r)) js.

(** Line 47: [df.dropna(subset=[...])]. *)
Definition dropna (subset : list string) (df : DataFrame) : result DataFrame :=
  js ← subset_positions subset df;
  Ok {| columns := columns df; rows := List.filter (complete_at js) (rows df) |}.

(** Lines 34-49, from the frame [pd.read_csv] returned. *)
Definition load_and_clean_data (raw : DataFrame) : result DataFrame :=
  let df := clean_columns raw in
  df ← clean_values (columns df) df;
  df ← to_numeric_column "Average score" df;
  df ← to_numeric_column "Standard deviation" df;
  dropna ["Average score"; "Standard deviation"] df.

(** *** The loader seen row by row *)

(** What the loop has done to the cell at position [k] of a row when it
    has passed the first [a] columns of [raw]. *)
Definition clean_cell_in (raw : DataFrame) (a k : nat) (c : cell) : cell :=
  if bool_decide (k < a) && dtype_is_object k raw then str_clean_cell c else c.

Definition clean_upto (raw : DataFrame) (a : nat) (r : nat * list cell) : nat * list cell :=
  (r.1, imap (clean_cell_in raw a) r.2).

(** What the loop of lines 38-40 makes of a row. *)
Definition clean_row (raw : DataFrame) (r : nat * list cell) : nat * list cell :=
  clean_upto raw (List.length (columns raw)) r.

(** What lines 43-44 make of a row, the two columns being at [ja] and [js]. *)
Definition coerce_row (ja js : nat) (r : nat * list cell) : nat * list cell :=
  (r.1, alter to_numeric_cell js (alter to_numeric_cell ja r.2)).

(** A row of the file, cleaned and coerced. *)
Definition normal_row (raw : DataFrame) (ja js : nat) (r : nat * list cell) :=
  coerce_row ja js (clean_row raw r).

(** The frame the loader returns when the labels allow it. *)
Definition loaded (raw : DataFrame) (ja js : nat) : DataFrame :=
  {| columns := map PyStr.clean_header (columns raw);
     rows := List.filter (complete_at [ja; js]) (map (normal_row raw ja js) (rows raw)) |}.

(** The field of row [r] under column [j] as the loop of lines 38-40
    leaves it: trimmed and de-quoted in a column of strings, as it is in a
    numeric column. *)
Definition trimmed (raw : DataFrame) (j : nat) (r : nat * list cell) : cell :=
  if dtype_is_object j raw then str_clean_cell (cell_at j r) else cell_at j r.

(** The field parses as numeric after trimming. *)
Definition parses_numeric (raw : DataFrame) (j : nat) (r : nat * list cell) : bool :=
  match trimmed raw j r with
  | CStr s => bool_decide (is_Some (parse_num s))
  | CNum _ => true
  | CNaN => false
  end.

(** The same test on the cell of the file itself: a string parses after
    trimming and de-quoting, a number is a number. *)
Definition numeric_field (c : cell) : bool :=
  match c with
  | CStr s => bool_decide (is_Some (parse_num (PyStr.clean_str s)))
  | CNum _ => true
  | CNaN => false
  end.

(** The column at [j] is of one type, as [read_csv] types a column it
    parses in one piece: where it holds strings it holds no numbers.  (Only
    a file so large that [read_csv] infers the type chunk by chunk can mix
    the two; there the [.str] methods of line 40 turn the numbers into
    missing values.) *)
Definition uniform (raw : DataFrame) (j : nat) : Prop :=
  dtype_is_object j raw = true →
  ∀ r x, r ∈ rows raw → cell_at j r ≠ CNum x.

(** At least one of the two numeric fields of the row is malformed. *)
Definition malformed (raw : DataFrame) (ja js : nat) (r : nat * list cell) : bool :=
  negb (parses_numeric raw ja r) || negb (parses_numeric raw js r).

(** Every label and every string under a label is left as it is by the
    cleaning of lines 37 and 40. *)
Definition settled (df : DataFrame) : Prop :=
  (∀ col, col ∈ columns df → PyStr.clean_header col = col) ∧
  (∀ r k s, r ∈ rows df → k < List.length (columns df) →
     cell_at k r = CStr s → PyStr.clean_str s = s).

End Loader.

(** ** The filter, lines 70-74 *)

Section Filter.

Context {num : Type}.
Local Abbreviation cell := (cell num).
Local Abbreviation DataFrame := (DataFrame num).

(** One element of [series == v] for a string [v]: a number or a missing
    value never equals a string. *)
Definition eq_str (v : string) (c : cell) : bool :=
  match c with
  | CStr s => String.eqb s v
  | _ => false
  end.

(** [filtered_df[filtered_df[col] == v]].  The branch for a doubled label is
    never taken on the frame the loader returns (the loader raises on such
    labels before). *)
Definition select_eq (col v : string) (df : DataFrame) : result DataFrame :=
  match locate col df with
  | Unique j =>
      Ok {| columns := columns df;
            rows := List.filter (λ r, eq_str v (cell_at j r)) (rows df) |}
  | Absent => Raise (KeyError col)
  | Duplicated => Raise (ValueError "cannot reindex on an axis with duplicate labels")
  end.

(** Lines 70-74.  The two arguments are the values of the two select boxes,
    where the entry [All] stands for no constraint. *)
Definition filtered_df (selected_group selected_exposure : string)
    (df : DataFrame) : result DataFrame :=
  view ← (if String.eqb selected_group "All" then Ok df
          else select_eq "Major groups" selected_group df);
  if String.eqb selected_exposure "All" then Ok view
  else select_eq "mean_exposure_level" selected_exposure view.

(** A constraint holds of a cell: there is none (the entry [All]), or the
    cell is exactly that string. *)
Definition holds (sel : string) (c : cell) : bool :=
  String.eqb sel "All" || eq_str sel c.

(** The filter in the words of the specification: both constraints at
    once, joined by a logical AND; the two columns are at [jg] and [je]. *)
Definition apply_both (selected_group selected_exposure : string) (jg je : nat)
    (df : DataFrame) : DataFrame :=
  {| columns := columns df;
     rows := List.filter
               (λ r, holds selected_group (cell_at jg r)
                     && holds selected_exposure (cell_at je r))
               (rows df) |}.

End Filter.

(** ** The three derivations, lines 82, 105-106 and 121 *)

Section Derive.

Context {num : Type}.

(** [x <= y] on float64 values that are not NaN. *)
Context (num_leb : num → num → bool).

Local Abbreviation cell := (cell num).
Local Abbreviation DataFrame := (DataFrame num).

(** The sort key of a row of a numeric column: its number, or nothing for a
    missing value. *)
Definition score (j : nat) (r : nat * list cell) : option num :=
  match cell_at j r with
  | CNum x => Some x
  | _ => None
  end.

(** [a] may stand before [b] in descending order; missing values go last. *)
Definition score_ge (a b : option num) : bool :=
  match a, b with
  | Some x, Some y => num_leb y x
  | Some _, None => true
  | None, Some _ => false
  | None, None => true
  end.

(** Insertion into a list in descending order: the new row, which stood
    before all of [l] in the frame, goes before the first row it may stand
    before, so it stays ahead of the rows it ties with. *)
Fixpoint insert_desc (j : nat) (r : nat * list cell) (l : list (nat * list cell)) :=
  match l with
  | [] => [r]
  | r' :: l' =>
      if score_ge (score j r) (score j r') then r :: l
      else r' :: insert_desc j r l'
  end.

(** Stable sort, descending by the column at [j]. *)
Fixpoint sort_desc (j : nat) (l : list (nat * list cell)) :=
  match l with
  | [] => []
  | r :: l' => insert_desc j r (sort_desc j l')
  end.

(** [df.nlargest(n, col)] with the default [keep='first']: the first [n]
    rows in descending order of [col], ties in the order of the frame.
    pandas refuses a column of dtype object. *)
Definition nlargest (n : nat) (col : string) (df : DataFrame) : result DataFrame :=
  match locate col df with
  | Unique j =>
      if dtype_is_object j df
      then Raise (TypeError "Column has dtype object, cannot use method 'nlargest' with this dtype")
      else Ok {| columns := columns df; rows := take n (sort_desc j (rows df)) |}
  | Absent => Raise (KeyError col)
  | Duplicated => Raise (ValueError "cannot reindex on an axis with duplicate labels")
  end.

(** [x == y] on numbers. *)
Definition num_eqb (x y : num) : bool := num_leb x y && num_leb y x.

(** Two cells hold the same value ([NaN] is no value). *)
Definition same_value (a b : cell) : bool :=
  match a, b with
  | CStr s, CStr t => String.eqb s t
  | CNum x, CNum y => num_eqb x y
  | _, _ => false
  end.

(** Counting one more occurrence of [c] in a table of counts that lists the
    values in the order of their first occurrence. *)
Fixpoint count_one (c : cell) (t : list (cell * nat)) :=
  match t with
  | [] => [(c, 1)]
  | (v, k) :: t' =>
      if same_value v c then (v, S k) :: t'
      else (v, k) :: count_one c t'
  end.

Fixpoint insert_count (e : cell * nat) (t : list (cell * nat)) :=
  match t with
  | [] => [e]
  | e' :: t' => if (e'.2 <=? e.2)%nat then e :: t else e' :: insert_count e t'
  end.

(** [series.value_counts()]: missing values are not counted, the most
    frequent value comes first.  The order among values of equal count is
    that of the insertion below; pandas may order them otherwise, and
    nothing proved of the table depends on it. *)
Definition value_counts_of (s : list cell) : list (cell * nat) :=
  foldr insert_count []
    (foldl (λ t c, count_one c t) [] (List.filter notna s)).

(** Lines 105-106: [filtered_df['mean_exposure_level'].value_counts().reset_index()],
    a table of two columns, the label and its count. *)
Definition value_counts (col : string) (df : DataFrame)
    : result (list (cell * nat)) :=
  match locate col df with
  | Unique j => Ok (value_counts_of (series j df))
  | Absent => Raise (KeyError col)
  | Duplicated => Raise (ValueError "cannot reindex on an axis with duplicate labels")
  end.

(** The count a table lists for the string [v]: that of its first entry
    with this label, 0 when there is none. *)
Fixpoint count_for (v : string) (t : list (cell * nat)) : nat :=
  match t with
  | [] => 0
  | (l, k) :: t' => if eq_str v l then k else count_for v t'
  end.

(** The labels of a table that are strings. *)
Fixpoint str_labels (t : list (cell * nat)) : list string :=
  match t with
  | [] => []
  | (CStr v, _) :: t' => v :: str_labels t'
  | _ :: t' => str_labels t'
  end.

(** How many cells of a column are the string [v]. *)
Definition occurrences (v : string) (s : list cell) : nat :=
  List.length (List.filter (eq_str v) s).

(** What the three charts are drawn from. *)
Record charts := {
  top_10_df : DataFrame;                (* line 82, the bar chart *)
  exposure_counts : list (cell * nat);  (* line 105, the pie chart *)
  scatter_df : DataFrame                (* line 121, the scatter plot *)
}.

Definition derive (view : DataFrame) : result charts :=
  top ← nlargest 10 "Average score" view;
  counts ← value_counts "mean_exposure_level" view;
  Ok {| top_10_df := top; exposure_counts := counts; scatter_df := view |}.

(** Row [a] may stand before row [b]: its score is not smaller. *)
Definition ge_at (j : nat) (a b : nat * list cell) : Prop :=
  score_ge (score j a) (score j b) = true.

(** The two rows tie: neither score is smaller. *)
Definition tie (j : nat) (x r : nat * list cell) : bool :=
  score_ge (score j x) (score j r) && score_ge (score j r) (score j x).

End Derive.

(** ** The chat with the answering service, lines 146-164 *)

(** One entry of [st.session_state.chat_history]. *)
Record ChatTurn := {
  id : string;
  query : string;
  answer : string
}.

(** A raised Python exception: whether its class derives from [Exception]
    (every error does; [KeyboardInterrupt], [SystemExit] and [GeneratorExit]
    do not), and [str(e)]. *)
Record PyExc := {
  is_Exception : bool;
  str_of : string
}.

(** What [grok_client.chat.completions.create(...)] does for one request:
    it returns a response, of which the script reads the message contents
    of the choices, or it raises. *)
Inductive reply :=
  | Returns (choices : list string)
  | Raises (e : PyExc).

(** How the block of lines 147-164 ends: it runs through, or an exception
    leaves it.  Both carry the history and the requests sent. *)
Inductive chat_end :=
  | Completed (chat_history : list ChatTurn) (sent : list string)
  | Propagated (e : PyExc) (chat_history : list ChatTurn) (sent : list string).

Definition history_of (c : chat_end) : list ChatTurn :=
  match c with
  | Completed h _ => h
  | Propagated _ h _ => h
  end.

Definition sent_of (c : chat_end) : list string :=
  match c with
  | Completed _ s => s
  | Propagated _ _ s => s
  end.

Definition newline : string := String (ascii_of_nat 10) EmptyString.

(** The fixed text of the f-string before the sample rows, lines 149-151. *)
Definition preamble : string :=
  newline +:+
  "    The dataset contains job titles with their major groups, average scores (0 to 1, higher means more automation exposure), mean exposure levels (e.g., 'Highest exposure, low task variability (gradient 4)'), and standard deviations. Here are some sample rows:"
  +:+ newline +:+ "    ".

(** The fixed text between the sample rows and the question, line 152. *)
Definition question_label : string := newline +:+ "    User question: ".

(** The fixed text behind the question, line 153. *)
Definition context_end : string := newline +:+ "    ".

Definition error_prefix : string := "Error contacting Grok: ".

Section Chat.

Context {num : Type}.
Local Abbreviation DataFrame := (DataFrame num).

(** [DataFrame.to_string()], the text rendering of pandas. *)
Context (to_string : DataFrame → string).

(** [df.head(n)] *)
Definition head (n : nat) (df : DataFrame) : DataFrame :=
  {| columns := columns df; rows := take n (rows df) |}.

(** Lines 149-153. *)
Definition context (df : DataFrame) (user_query : string) : string :=
  preamble +:+ to_string (head 5 df) +:+ question_label +:+ user_query
  +:+ context_end.

(** Lines 161 and 164: [chat_history.append({...})]. *)
Definition append_turn (chat_history : list ChatTurn) (uuid4 user_query answer : string) :=
  (chat_history ++ [{| id := uuid4; query := user_query; answer := answer |}])%list.

(** Lines 147-164.  [grok] is the answering service, [uuid4] the value of
    [str(uuid.uuid4())] in this run, [df] the frame of line 55. *)
Definition chat (grok : string → reply) (uuid4 : string) (df : DataFrame)
    (user_query : string) (chat_history : list ChatTurn) : chat_end :=
  match user_query with
  | EmptyString => Completed chat_history []
  | _ =>
      let ctx := context df user_query in
      match grok ctx with
      | Returns (content :: _) =>
          Completed (append_turn chat_history uuid4 user_query content) [ctx]
      | Returns [] =>
          (* [response.choices[0]] raises IndexError *)
          Completed (append_turn chat_history uuid4 user_query
                       (error_prefix +:+ "list index out of range")) [ctx]
      | Raises e =>
          if is_Exception e
          then Completed (append_turn chat_history uuid4 user_query
                            (error_prefix +:+ str_of e)) [ctx]
          else Propagated e chat_history [ctx]
      end
  end.

End Chat.

(** ** One run of the script *)

Section Page.

Context {num : Type}.
Context (parse_num : string → option num).
Context (num_leb : num → num → bool).
Context (to_string : DataFrame num → string).

(** What one run of the page computes, when no statement before the chat
    raises: the frame, the view, the chart inputs and the end of the chat. *)
Record page := {
  page_df : DataFrame num;
  page_view : DataFrame num;
  page_charts : charts (num := num);
  page_chat : chat_end
}.

(** Lines 55, 70-74, 82, 105 and 147-164 for the frame [read_csv] returned,
    the two selections, the text of the input box, the answering service,
    the identifier drawn and the history of the session.  The widgets of
    lines 62-67 and 146 and the drawing of the charts are not part of it:
    they are where the arguments come from and where the results go. *)
Definition run (raw : DataFrame num) (selected_group selected_exposure : string)
    (user_query : string) (grok : string → reply) (uuid4 : string)
    (chat_history : list ChatTurn) : result page :=
  df ← load_and_clean_data parse_num raw;
  view ← filtered_df selected_group selected_exposure df;
  ch ← derive num_leb view;
  Ok {| page_df := df; page_view := view; page_charts := ch;
        page_chat := chat to_string grok uuid4 df user_query chat_history |}.

End Page.

(** ** The select boxes of the sidebar, lines 62-67 *)

Section Sidebar.

Context {num : Type}.
Context (num_leb : num → num → bool).

(** What [sorted] makes of a list of floats.  Python fixes the result only
    for lists without NaN, where it is the ascending order; with NaN among
    them it depends on the comparisons the sort happens to make, so it is
    left open here. *)
Context (sorted_floats : list (cell num) → list (cell num)).

Local Abbreviation cell := (cell num).
Local Abbreviation DataFrame := (DataFrame num).

(** Two cells count as one value for [unique]: equal strings, equal
    numbers, and any two missing values. *)
Definition same_key (a b : cell) : bool :=
  match a, b with
  | CNaN, CNaN => true
  | _, _ => same_value num_leb a b
  end.

(** [series.unique()]: the values in the order of their first occurrence;
    [seen] holds the values met so far. *)
Fixpoint unique_from (seen : list cell) (s : list cell) : list cell :=
  match s with
  | [] => []
  | c :: s' =>
      if existsb (same_key c) seen then unique_from seen s'
      else c :: unique_from (c :: seen) s'
  end.

Definition unique (s : list cell) : list cell := unique_from [] s.

(** The strings among some cells. *)
Fixpoint strings_of (l : list cell) : list string :=
  match l with
  | [] => []
  | CStr v :: l' => v :: strings_of l'
  | _ :: l' => strings_of l'
  end.

(** Strings in ascending order, compared code point by code point as
    Python compares [str]. *)
Fixpoint insert_str (v : string) (l : list string) : list string :=
  match l with
  | [] => [v]
  | w :: l' => if String.leb v w then v :: l else w :: insert_str v l'
  end.

Fixpoint sort_str (l : list string) : list string :=
  match l with
  | [] => []
  | v :: l' => insert_str v (sort_str l')
  end.

(** [sorted(values)] for the values of a column: strings are put in order,
    floats are left to [sorted_floats], and a list that holds a string and
    a float (a number or NaN) raises, since [<] is not defined between
    them.  The text of that TypeError names the two types in the order of
    the operands compared first; one of the two texts stands for both. *)
Definition py_sorted (l : list cell) : result (list cell) :=
  if forallb is_str l then Ok (map CStr (sort_str (strings_of l)))
  else if existsb is_str l
       then Raise (TypeError "'<' not supported between instances of 'float' and 'str'")
       else Ok (sorted_floats l).

(** Lines 64 and 66: [['All'] + sorted(df[col].unique())]. *)
Definition options (col : string) (df : DataFrame) : result (list cell) :=
  match locate col df with
  | Unique j => values ← py_sorted (unique (series j df)); Ok (CStr "All" :: values)
  | Absent => Raise (KeyError col)
  | Duplicated => Raise (AttributeError "'DataFrame' object has no attribute 'unique'")
  end.

(** Lines 62-67: the entries of the two select boxes. *)
Definition sidebar (df : DataFrame) : result (list cell * list cell) :=
  major_groups ← options "Major groups" df;
  exposure_levels ← options "mean_exposure_level" df;
  Ok (major_groups, exposure_levels).

End Sidebar.

(** ** The session over several runs, and the display of the history *)

(** Lines 27-28: a new session starts with an empty history, a running one
    keeps what it has. *)
Definition init_chat_history (session_state : option (list ChatTurn)) : list ChatTurn :=
  match session_state with
  | Some chat_history => chat_history
  | None => []
  end.

(** What one run of the script finds: the text in the input box, the
    answering service as it behaves during that run, and the identifier
    [uuid4] draws. *)
Record submission := {
  box : string;
  service : string → reply;
  drawn : string
}.

Section Session.

Context {num : Type}.
Context (to_string : DataFrame num → string).

(** The history the session holds after the runs, one after the other:
    Streamlit runs the whole script again on every interaction, with the
    text that is in the box at that time. *)
Definition session_after (df : DataFrame num) (runs : list submission)
    (chat_history : list ChatTurn) : list ChatTurn :=
  foldl (λ h s, history_of (chat to_string (service s) (drawn s) df (box s) h))
    chat_history runs.

(** The runs whose exceptions, if any, are instances of [Exception]. *)
Definition caught (df : DataFrame num) (s : submission) : Prop :=
  ∀ e, service s (context to_string df (box s)) = Raises e → is_Exception e = true.

End Session.

(** The one-character string that holds the double quote. *)
Definition dq : string := String PyStr.quote EmptyString.

(** [<div class=...>] with the class name in double quotes. *)
Definition div_open (class : string) : string :=
  "<div class=" +:+ dq +:+ class +:+ dq +:+ ">".

(** Lines 170 and 171: the two blocks of one turn. *)
Definition you_html (c : ChatTurn) : string :=
  div_open "chat-message" +:+ "<strong>You:</strong> " +:+ query c +:+ "</div>".

Definition grok_html (c : ChatTurn) : string :=
  div_open "chat-message" +:+ "<strong>Grok:</strong> " +:+ answer c +:+ "</div>".

(** Lines 169-171: the loop over [chat_history[::-1]]. *)
Definition chat_messages (chat_history : list ChatTurn) : list string :=
  flat_map (λ c, [you_html c; grok_html c]) (rev chat_history).

(** Lines 167-172: the bodies of the [st.markdown] calls, in order. *)
Definition display_chat (chat_history : list ChatTurn) : list string :=
  match chat_history with
  | [] => []
  | _ => div_open "chat-container" :: chat_messages chat_history ++ ["</div>"]
  end.

(** ** An instance to run the model on: rationals and plain decimals *)

Module Sample.

Definition digit_val (c : ascii) : option Z :=
  let n := nat_of_ascii c in
  if ((48 <=? n) && (n <=? 57))%nat then Some (Z.of_nat (n - 48)) else None.

(** Reads the digits at the head of [s] on top of [acc]: the number read,
    how many digits it took, and the rest. *)
Fixpoint read_digits (s : string) (acc : Z) (k : nat) : Z * nat * string :=
  match s with
  | EmptyString => (acc, k, s)
  | String c r =>
      match digit_val c with
      | Some d => read_digits r (10 * acc + d)%Z (S k)
      | None => (acc, k, s)
      end
  end.

Definition parse_unsigned (s : string) : option Q :=
  let '(i, ki, r) := read_digits s 0%Z 0 in
  match r with
  | EmptyString => if (ki =? 0)%nat then None else Some (inject_Z i)
  | String c r' =>
      if Ascii.eqb c "."%char then
        let '(f, kf, r'') := read_digits r' i 0 in
        match r'' with
        | EmptyString =>
            if (ki + kf =? 0)%nat then None
            else Some (Qmake f (Z.to_pos (10 ^ Z.of_nat kf)))
        | _ => None
        end
      else None
  end.

(** Plain decimals with an optional sign, a fragment of what
    [pd.to_numeric] reads; every other string counts as not numeric. *)
Definition parse_decimal (s : string) : option Q :=
  match s with
  | String c r =>
      if Ascii.eqb c "-"%char then Qopp <$> parse_unsigned r
      else if Ascii.eqb c "+"%char then parse_unsigned r
      else parse_unsigned s
  | EmptyString => None
  end.

Definition render_cell (c : cell Q) : string :=
  match c with
  | CStr s => s
  | CNum x => "<number>"
  | CNaN => "NaN"
  end.

(** A stand-in for [to_string]: the labels, then one line per row. *)
Definition render (df : DataFrame Q) : string :=
  String.concat "  " (columns df) +:+
  String.concat "" (map (λ r, newline +:+ String.concat "  " (map render_cell r.2)) (rows df)).

Definition labels : list string :=
  ["Major groups"; "Job title"; "mean_exposure_level"; "Average score"; "Standard deviation"].

(** The three rows of the example scenario, as [read_csv] returns a clean
    file: the two numeric columns are float64. *)
Definition example_raw : DataFrame Q :=
  {| columns := labels;
     rows := [ (0, [CStr "Clerical"; CStr "Clerk"; CStr "gradient 4"; CNum (9 # 10)%Q; CNum (5 # 100)%Q]);
               (1, [CStr "Professional"; CStr "Analyst"; CStr "gradient 1"; CNum (3 # 10)%Q; CNum (1 # 10)%Q]);
               (2, [CStr "Clerical"; CStr "Typist"; CStr "gradient 4"; CNum (85 # 100)%Q; CNum (4 # 100)%Q]) ] |}.

(** A file with quoting left in the cells and a malformed score: the
    columns holding such cells are of dtype object. *)
Definition dirty_raw : DataFrame Q :=
  {| columns := [quoted "Major groups"; " Job title"; "mean_exposure_level";
                 "Average score"; "Standard deviation "];
     rows := [ (0, [CStr (quoted "Clerical"); CStr " Clerk "; CStr "gradient 4"; CStr "0.9"; CStr (quoted "0.05")]);
               (1, [CStr "Professional"; CStr "Analyst"; CStr "gradient 1"; CStr "n/a"; CStr "0.1"]);
               (2, [CStr " Clerical "; CStr (quoted "Typist"); CStr "gradient 4"; CStr " 0.85"; CNaN]);
               (3, [CStr "Clerical"; CStr "Typist"; CStr (quoted "gradient 4"); CStr "0.85 "; CStr "0.04"]) ] |}.

(** What the loader makes of [dirty_raw]: rows 1 and 2 are gone. *)
Definition dirty_clean : DataFrame Q :=
  {| columns := labels;
     rows := [ (0, [CStr "Clerical"; CStr "Clerk"; CStr "gradient 4"; CNum (9 # 10)%Q; CNum (5 # 100)%Q]);
               (3, [CStr "Clerical"; CStr "Typist"; CStr "gradient 4"; CNum (85 # 100)%Q; CNum (4 # 100)%Q]) ] |}.

(** A file whose job title sits in two pairs of quotes. *)
Definition nested_raw : DataFrame Q :=
  {| columns := labels;
     rows := [ (0, [CStr "Clerical"; CStr (quoted (quoted "Clerk")); CStr "gradient 4"; CNum (9 # 10)%Q; CNum (5 # 100)%Q]) ] |}.

(** What the loader makes of it: one pair of quotes is left. *)
Definition nested_once : DataFrame Q :=
  {| columns := labels;
     rows := [ (0, [CStr "Clerical"; CStr (quoted "Clerk"); CStr "gradient 4"; CNum (9 # 10)%Q; CNum (5 # 100)%Q]) ] |}.

(** A file that carries one major group in three forms. *)
Definition engineer_raw : DataFrame Q :=
  {| columns := labels;
     rows := [ (0, [CStr (quoted "Engineer"); CStr "Civil engineer"; CStr "gradient 2"; CNum (4 # 10)%Q; CNum (5 # 100)%Q]);
               (1, [CStr " Engineer "; CStr "Mining engineer"; CStr "gradient 2"; CNum (3 # 10)%Q; CNum (1 # 10)%Q]);
               (2, [CStr "Engineer"; CStr "Chemical engineer"; CStr "gradient 3"; CNum (5 # 10)%Q; CNum (4 # 100)%Q]) ] |}.

Definition engineer_clean : DataFrame Q :=
  {| columns := labels;
     rows := [ (0, [CStr "Engineer"; CStr "Civil engineer"; CStr "gradient 2"; CNum (4 # 10)%Q; CNum (5 # 100)%Q]);
               (1, [CStr "Engineer"; CStr "Mining engineer"; CStr "gradient 2"; CNum (3 # 10)%Q; CNum (1 # 10)%Q]);
               (2, [CStr "Engineer"; CStr "Chemical engineer"; CStr "gradient 3"; CNum (5 # 10)%Q; CNum (4 # 100)%Q]) ] |}.

(** The ranking of the whole example: row 2 overtakes row 1. *)
Definition example_top : DataFrame Q :=
  {| columns := labels;
     rows := [ (0, [CStr "Clerical"; CStr "Clerk"; CStr "gradient 4"; CNum (9 # 10)%Q; CNum (5 # 100)%Q]);
               (2, [CStr "Clerical"; CStr "Typist"; CStr "gradient 4"; CNum (85 # 100)%Q; CNum (4 # 100)%Q]);
               (1, [CStr "Professional"; CStr "Analyst"; CStr "gradient 1"; CNum (3 # 10)%Q; CNum (1 # 10)%Q]) ] |}.

(** The view of the example under the major group [Clerical]. *)
Definition clerical_view : DataFrame Q :=
  {| columns := labels;
     rows := [ (0, [CStr "Clerical"; CStr "Clerk"; CStr "gradient 4"; CNum (9 # 10)%Q; CNum (5 # 100)%Q]);
               (2, [CStr "Clerical"; CStr "Typist"; CStr "gradient 4"; CNum (85 # 100)%Q; CNum (4 # 100)%Q]) ] |}.

(** A score column of mixed type, as [read_csv] can leave it when it types
    a large file chunk by chunk: a number next to a string. *)
Definition mixed_raw : DataFrame Q :=
  {| columns := labels;
     rows := [ (0, [CStr "Clerical"; CStr "Clerk"; CStr "gradient 4"; CStr "0.9"; CNum (5 # 100)%Q]);
               (1, [CStr "Clerical"; CStr "Typist"; CStr "gradient 4"; CNum (85 # 100)%Q; CNum (4 # 100)%Q]) ] |}.

(** A score column typed chunk by chunk, as [read_csv] types a large file:
    the chunk of rows 0 and 1 holds an entry that is no number, so its
    entries are strings; the chunk of row 2 holds numbers only. *)
Definition chunked_raw : DataFrame Q :=
  {| columns := labels;
     rows := [ (0, [CStr "Clerical"; CStr "Clerk"; CStr "gradient 4"; CStr "0.9"; CNum (5 # 100)%Q]);
               (1, [CStr "Professional"; CStr "Analyst"; CStr "gradient 1"; CStr "unknown"; CNum (1 # 10)%Q]);
               (2, [CStr "Clerical"; CStr "Typist"; CStr "gradient 4"; CNum (85 # 100)%Q; CNum (4 # 100)%Q]) ] |}.

(** An answering service that is down, and one that answers. *)
Definition timeout_error : PyExc := {| is_Exception := true; str_of := "timed out" |}.
Definition grok_down (ctx : string) : reply := Raises timeout_error.
Definition grok_up (ctx : string) : reply := Returns ["Clerks."].

Definition earlier_turn : ChatTurn :=
  {| id := "id-0"; query := "How many rows?"; answer := "Three." |}.

(** A service that answers with two choices, and one interrupted from the
    keyboard. *)
Definition grok_two (ctx : string) : reply := Returns ["Clerks."; "Typists."].
Definition interrupt : PyExc := {| is_Exception := false; str_of := EmptyString |}.
Definition grok_interrupted (ctx : string) : reply := Raises interrupt.

(** Four runs of one session: a question, a run with the box empty, the
    same question again with the service down, and another question. *)
Definition four_runs : list submission :=
  [ {| box := "Which jobs are exposed?"; service := grok_up; drawn := "id-1" |};
    {| box := EmptyString; service := grok_up; drawn := "id-2" |};
    {| box := "Which jobs are exposed?"; service := grok_down; drawn := "id-3" |};
    {| box := "And the least?"; service := grok_two; drawn := "id-4" |} ].

(** A file in which one row has no major group. *)
Definition gap_raw : DataFrame Q :=
  {| columns := labels;
     rows := [ (0, [CStr "Clerical"; CStr "Clerk"; CStr "gradient 4"; CNum (9 # 10)%Q; CNum (5 # 100)%Q]);
               (1, [CNaN; CStr "Analyst"; CStr "gradient 1"; CNum (3 # 10)%Q; CNum (1 # 10)%Q]) ] |}.

(** Files whose labels do not pass the loader: two labels that are the same
    once cleaned, no score column, no deviation column. *)
Definition twin_raw : DataFrame Q :=
  {| columns := ["Major groups"; "Average score"; quoted "Average score"; "Standard deviation"];
     rows := [] |}.

Definition no_score_raw : DataFrame Q :=
  {| columns := ["Major groups"; "Average  score"; "Standard deviation"];
     rows := [] |}.

Definition no_deviation_raw : DataFrame Q :=
  {| columns := ["Major groups"; "Average score"; "Std deviation"];
     rows := [] |}.

(** A stand-in for [sorted] on floats; the select boxes of the examples
    are over strings, where it is not called. *)
Definition sorted_as_is (l : list (cell Q)) : list (cell Q) := l.

End Sample.

(** ** The cleaning of a string in the words of the specification *)

Module SpecText.

(** A single leading quote goes, if there is one. *)
Definition drop_leading_quote (s : string) : string :=
  match s with
  | String c r => if PyStr.is_quote c then r else s
  | EmptyString => s
  end.

(** A single trailing quote goes, if there is one. *)
Fixpoint drop_trailing_quote (s : string) : string :=
  match s with
  | EmptyString => EmptyString
  | String c EmptyString => if PyStr.is_quote c then EmptyString else s
  | String c r => String c (drop_trailing_quote r)
  end.

(** Trimmed, then one quote off each end. *)
Definition trim_dequote (s : string) : string :=
  drop_trailing_quote (drop_leading_quote (PyStr.strip s)).

(** Every character of [s] is white space. *)
Fixpoint blank (s : string) : bool :=
  match s with
  | EmptyString => true
  | String c r => PyStr.isspace c && blank r
  end.

Definition peelable (c : ascii) : bool := PyStr.isspace c || PyStr.is_quote c.

Fixpoint peel_left (s : string) : string :=
  match s with
  | EmptyString => EmptyString
  | String c r => if peelable c then peel_left r else s
  end.

Fixpoint peel_right (s : string) : string :=
  match s with
  | EmptyString => EmptyString
  | String c r =>
      match peel_right r with
      | EmptyString => if peelable c then EmptyString else String c EmptyString
      | r' => String c r'
      end
  end.

(** What is left of a value when all quoting and white space around it is
    taken away: two raw values with the same rest differ in quoting and
    white space only. *)
Definition peel (s : string) : string := peel_right (peel_left s).

Definition starts_with (P : ascii → bool) (s : string) : bool :=
  match s with
  | EmptyString => false
  | String c _ => P c
  end.

Fixpoint ends_with (P : ascii → bool) (s : string) : bool :=
  match s with
  | EmptyString => false
  | String c EmptyString => P c
  | String _ r => ends_with P r
  end.

(** A value that neither starts nor ends with white space or a quote. *)
Definition bare (s : string) : Prop :=
  starts_with peelable s = false ∧ ends_with peelable s = false.

(** The last character of [s] is white space. *)
Definition ends_space (s : string) : bool := ends_with PyStr.isspace s.

(** Some character of [s] is a double quote. *)
Fixpoint has_quote (s : string) : bool :=
  match s with
  | EmptyString => false
  | String c r => PyStr.is_quote c || has_quote r
  end.

(** [s] is the value [v] as a file may carry it: with white space around
    it, bare or in one pair of quotes. *)
Definition variant (v s : string) : Prop :=
  ∃ w1 w2, blank w1 = true ∧ blank w2 = true ∧
           (s = w1 +:+ v +:+ w2 ∨ s = w1 +:+ quoted v +:+ w2).

End SpecText.

(** * Theorems *)

(** ** Strings *)

Section StringFacts.

Import PyStr SpecText.

Lemma rstrip_cons c r :
  rstrip (String c r) =
    match rstrip r with
    | EmptyString => if isspace c then EmptyString else String c EmptyString
    | r' => String c r'
    end.
Proof. reflexivity. Qed.

Lemma ends_space_cons c r :
  r ≠ EmptyString → ends_space (String c r) = ends_space r.
Proof. unfold ends_space. destruct r; [done | reflexivity]. Qed.

Lemma rstrip_ends_space s : ends_space (rstrip s) = false.
Proof.
  induction s as [|c r IH]; [reflexivity|].
  simpl. destruct (rstrip r) as [|b t] eqn:E.
  - destruct (isspace c) eqn:Hc; simpl; done.
  - exact IH.
Qed.

Lemma strip_ends_space s : ends_space (strip s) = false.
Proof. apply rstrip_ends_space. Qed.

Lemma newline_isspace c : (nat_of_ascii c =? 10)%nat = true → isspace c = true.
Proof. intros H. unfold isspace. apply Nat.eqb_eq in H. rewrite H. reflexivity. Qed.

(** Away from position 0 the substitution can only take a quote that ends
    the string. *)
Lemma re_sub_scan_false r :
  ends_space r = false → re_sub_scan false r = drop_trailing_quote r.
Proof.
  induction r as [|c r IH]; [reflexivity|].
  intros He. destruct r as [|b t].
  - simpl. destruct (is_quote c); reflexivity.
  - rewrite ends_space_cons in He by done.
    assert (at_dollar (String b t) = false) as Hd.
    { destruct t; [|reflexivity]. simpl.
      destruct (nat_of_ascii b =? 10)%nat eqn:Hb; [|reflexivity].
      apply newline_isspace in Hb. unfold ends_space in He. simpl in He. congruence. }
    change (re_sub_scan false (String c (String b t)))
      with (if is_quote c && (false || at_dollar (String b t))
            then re_sub_scan false (String b t)
            else String c (re_sub_scan false (String b t))).
    rewrite Hd, andb_false_r, IH by done. reflexivity.
Qed.

Lemma re_sub_quote_ends_stripped t :
  ends_space t = false →
  re_sub_quote_ends t = drop_trailing_quote (drop_leading_quote t).
Proof.
  destruct t as [|c r]; [reflexivity|]. intros He.
  assert (ends_space r = false) as Hr.
  { destruct r; [reflexivity|]. by rewrite ends_space_cons in He. }
  unfold re_sub_quote_ends. simpl re_sub_scan. simpl drop_leading_quote.
  rewrite re_sub_scan_false by done.
  destruct (is_quote c) eqn:Hq; simpl; [reflexivity|].
  destruct r; [by rewrite Hq | reflexivity].
Qed.

(** The substitution of line 40 is: trim, then one quote off each end. *)
Lemma clean_str_trim_dequote s : clean_str s = trim_dequote s.
Proof. apply re_sub_quote_ends_stripped, strip_ends_space. Qed.

Lemma lstrip_blank w x : blank w = true → lstrip (w +:+ x) = lstrip x.
Proof.
  induction w as [|c w IH]; [done|]. simpl.
  intros [Hc Hw]%andb_prop. rewrite Hc. auto.
Qed.

Lemma lstrip_tight t : starts_with isspace t = false → lstrip t = t.
Proof. destruct t as [|c r]; simpl; [done|]. by intros ->. Qed.

Lemma rstrip_blank w : blank w = true → rstrip w = EmptyString.
Proof.
  induction w as [|c w IH]; [done|]. simpl.
  intros [Hc Hw]%andb_prop. by rewrite IH, Hc.
Qed.

Lemma rstrip_app_blank x w : blank w = true → rstrip (x +:+ w) = rstrip x.
Proof.
  intros Hw. induction x as [|c x IH]; simpl.
  - by apply rstrip_blank.
  - by rewrite IH.
Qed.

Lemma rstrip_tight t : ends_with isspace t = false → rstrip t = t.
Proof.
  induction t as [|c r IH]; [done|]. intros He.
  destruct r as [|b u].
  - simpl in *. by rewrite He.
  - change (ends_with isspace (String c (String b u)))
      with (ends_with isspace (String b u)) in He.
    rewrite rstrip_cons, IH by done. reflexivity.
Qed.

(** White space around a value that has none at its ends is what [strip]
    takes away. *)
Lemma strip_around w1 t w2 :
  blank w1 = true → blank w2 = true →
  starts_with isspace t = false → ends_with isspace t = false →
  strip (w1 +:+ t +:+ w2) = t.
Proof.
  intros H1 H2 Hs He. unfold strip.
  rewrite lstrip_blank by done.
  destruct t as [|c r].
  - simpl. apply rstrip_blank.
    clear -H2. induction w2 as [|c w IH]; [done|]. simpl in *.
    apply andb_prop in H2 as [Hc Hw]. rewrite Hc. auto.
  - rewrite lstrip_tight by done.
    rewrite rstrip_app_blank by done. by apply rstrip_tight.
Qed.

Lemma drop_trailing_quote_app c :
  drop_trailing_quote (c +:+ String quote EmptyString) = c.
Proof.
  induction c as [|a r IH]; [reflexivity|].
  simpl. destruct (r +:+ String quote EmptyString) eqn:E.
  - destruct r; discriminate.
  - by rewrite IH.
Qed.

Lemma drop_trailing_quote_tight c :
  ends_with is_quote c = false → drop_trailing_quote c = c.
Proof.
  induction c as [|a r IH]; [done|]. intros He.
  destruct r as [|b u].
  - simpl in *. by rewrite He.
  - change (ends_with is_quote (String a (String b u)))
      with (ends_with is_quote (String b u)) in He.
    change (drop_trailing_quote (String a (String b u)))
      with (String a (drop_trailing_quote (String b u))).
    by rewrite IH.
Qed.

Lemma ends_with_or P Q s :
  ends_with (λ c, P c || Q c) s = ends_with P s || ends_with Q s.
Proof.
  induction s as [|a r IH]; [done|]. destruct r; [done|]. exact IH.
Qed.

Lemma ends_with_app_last P c x :
  ends_with P (c +:+ String x EmptyString) = P x.
Proof.
  induction c as [|a r IH]; [done|]. simpl.
  destruct (r +:+ String x EmptyString) eqn:E; [destruct r; discriminate|].
  exact IH.
Qed.

Lemma bare_parts c :
  bare c →
  starts_with isspace c = false ∧ ends_with isspace c = false ∧
  starts_with is_quote c = false ∧ ends_with is_quote c = false.
Proof.
  intros [Hs He]. unfold peelable in *.
  change (ends_with (λ c, isspace c || is_quote c) c = false) in He.
  rewrite ends_with_or in He. apply orb_false_elim in He as [? ?].
  destruct c as [|a r]; simpl in *; [done|].
  apply orb_false_elim in Hs as [? ?]. done.
Qed.

(** A bare value, bare or in one pair of quotes, with white space around
    it, is cleaned to itself. *)
Lemma clean_str_bare w1 c w2 :
  blank w1 = true → blank w2 = true → bare c →
  clean_str (w1 +:+ c +:+ w2) = c.
Proof.
  intros H1 H2 (Hs & He & Hq & Hq')%bare_parts.
  rewrite clean_str_trim_dequote. unfold trim_dequote.
  rewrite strip_around by done.
  rewrite drop_trailing_quote_tight.
  - destruct c; simpl in *; [done|]. by rewrite Hq.
  - destruct c; simpl in *; [done|]. by rewrite Hq.
Qed.

Lemma clean_str_quoted w1 c w2 :
  blank w1 = true → blank w2 = true →
  clean_str (w1 +:+ quoted c +:+ w2) = c.
Proof.
  intros H1 H2. rewrite clean_str_trim_dequote. unfold trim_dequote.
  rewrite strip_around; try done.
  - simpl. apply drop_trailing_quote_app.
  - unfold quoted.
    change (String quote (c +:+ String quote EmptyString))
      with ((String quote c) +:+ String quote EmptyString).
    apply ends_with_app_last.
Qed.

End StringFacts.

(** ** Lists *)

Section ListFacts.

Context {A : Type}.

Lemma filter_sublist_of (f : A → bool) (l : list A) : List.filter f l `sublist_of` l.
Proof.
  induction l as [|x l IH]; simpl; [constructor|].
  destruct (f x); by constructor.
Qed.

Lemma StronglySorted_sublist (R : relation A) (l k : list A) :
  k `sublist_of` l → StronglySorted R l → StronglySorted R k.
Proof.
  induction 1 as [|x k l Hs IH|x k l Hs IH]; intros Hl.
  - constructor.
  - apply StronglySorted_inv in Hl as [Hl Hx]. constructor; [auto|].
    apply Forall_forall. intros y Hy. rewrite Forall_forall in Hx.
    apply Hx. by eapply sublist_subseteq.
  - apply StronglySorted_inv in Hl as [Hl _]. auto.
Qed.

Lemma filter_all_length (f : A → bool) (l : list A) :
  List.length (List.filter f l) = List.length l → List.filter f l = l.
Proof.
  intros H. apply List.forallb_filter_id. by apply List.filter_length_forallb.
Qed.

Lemma map_fixed (g : A → A) (l : list A) :
  map g l = l → ∀ x, x ∈ l → g x = x.
Proof.
  induction l as [|y l IH]; intros H x Hx; [by apply elem_of_nil in Hx|].
  simpl in H. injection H as Hy Hl.
  apply elem_of_cons in Hx as [->|Hx]; auto.
Qed.

Lemma filter_prefix_take (f : A → bool) (n : nat) (l : list A) :
  List.filter f (take n l) `prefix_of` List.filter f l.
Proof.
  revert n. induction l as [|x l IH]; intros [|n]; simpl; try apply prefix_nil.
  destruct (f x); [by apply prefix_cons | apply IH].
Qed.

End ListFacts.

(** ** Column labels and their positions *)

Section Labels.

Context {num : Type}.
Local Abbreviation cell := (cell num).
Local Abbreviation DataFrame := (DataFrame num).

Lemma positions_length col cols from :
  List.length (positions col cols from) = count_occ string_dec cols col.
Proof.
  revert from. induction cols as [|c cs IH]; intros from; simpl; [done|].
  destruct (String.eqb_spec c col) as [->|Hne].
  - destruct (string_dec col col); [|done]. simpl. by rewrite IH.
  - destruct (string_dec c col); [done|]. apply IH.
Qed.

Lemma positions_elem col cols from j :
  j ∈ positions col cols from ↔ from ≤ j ∧ cols !! (j - from) = Some col.
Proof.
  revert from j. induction cols as [|c cs IH]; intros from j; simpl.
  - split; [by intros ?%elem_of_nil | by intros [_ ?]].
  - assert (∀ k, k ∈ positions col cs (S from) ↔
                  from < k ∧ (c :: cs) !! (k - from) = Some col) as Htail.
    { intros k. rewrite IH. split.
      - intros [Hle Hl]. split; [lia|].
        replace (k - from) with (S (k - S from)) by lia. done.
      - intros [Hlt Hl]. split; [lia|].
        replace (k - from) with (S (k - S from)) in Hl by lia. done. }
    destruct (String.eqb_spec c col) as [->|Hne].
    + rewrite elem_of_cons, Htail. split.
      * intros [->|[Hlt Hl]]; [|split; [lia|done]].
        split; [lia|]. by rewrite Nat.sub_diag.
      * intros [Hle Hl]. destruct (decide (j = from)) as [->|]; [by left|].
        right. split; [lia|done].
    + rewrite Htail. split.
      * intros [Hlt Hl]. split; [lia|done].
      * intros [Hle Hl]. split; [|done].
        destruct (decide (j = from)) as [->|]; [|lia].
        rewrite Nat.sub_diag in Hl. simpl in Hl. congruence.
Qed.

(** With distinct labels, [df[col]] is the Series at the position of the
    label. *)
Lemma locate_NoDup (df : DataFrame) j col :
  NoDup (columns df) → columns df !! j = Some col → locate col df = Unique j.
Proof.
  intros Hnd Hj. unfold locate.
  assert (j ∈ positions col (columns df) 0) as Hin.
  { apply positions_elem. split; [lia|]. by rewrite Nat.sub_0_r. }
  assert (List.length (positions col (columns df) 0) = 1) as Hlen.
  { rewrite positions_length.
    apply NoDup_ListNoDup in Hnd.
    pose proof (proj1 (List.NoDup_count_occ string_dec _) Hnd col) as Hle.
    assert (count_occ string_dec (columns df) col > 0); [|lia].
    apply List.count_occ_In. apply list_elem_of_In.
    by eapply list_elem_of_lookup_2. }
  destruct (positions col (columns df) 0) as [|k [|k' ks]]; simpl in Hlen; try lia.
  apply list_elem_of_singleton in Hin. by subst.
Qed.

Lemma locate_Unique_lookup (df : DataFrame) j col :
  locate col df = Unique j → columns df !! j = Some col.
Proof.
  unfold locate. intros H.
  assert (j ∈ positions col (columns df) 0) as Hin.
  { destruct (positions col (columns df) 0) as [|k [|k' ks]]; try done.
    injection H as ->. apply list_elem_of_singleton. done. }
  apply positions_elem in Hin as [_ Hl]. by rewrite Nat.sub_0_r in Hl.
Qed.

Lemma locate_Unique_count (df : DataFrame) j col :
  locate col df = Unique j → count_occ string_dec (columns df) col = 1.
Proof.
  unfold locate. intros H. rewrite <- (positions_length col _ 0).
  by destruct (positions col (columns df) 0) as [|k [|k' ks]].
Qed.

Lemma locate_columns (df df' : DataFrame) col :
  columns df' = columns df → locate col df' = locate col df.
Proof. unfold locate. by intros ->. Qed.

End Labels.

(** ** The loader, row by row *)

Section LoaderFacts.

Context {num : Type}.
Context (parse_num : string → option num).
Local Abbreviation cell := (cell num).
Local Abbreviation DataFrame := (DataFrame num).
Local Abbreviation coerce_row := (coerce_row parse_num).
Local Abbreviation normal_row := (normal_row parse_num).
Local Abbreviation loaded := (loaded parse_num).
Local Abbreviation parses_numeric := (parses_numeric parse_num).
Local Abbreviation malformed := (malformed parse_num).

Lemma cell_at_clean_upto_ge (raw : DataFrame) a k r :
  a ≤ k → cell_at k (clean_upto raw a r) = cell_at k r.
Proof.
  intros Hle. unfold cell_at, clean_upto. simpl. rewrite list_lookup_imap.
  destruct (r.2 !! k); simpl; [|done].
  unfold clean_cell_in. rewrite bool_decide_eq_false_2 by lia. done.
Qed.

Lemma clean_upto_0 (raw : DataFrame) r : clean_upto (raw : DataFrame) 0 r = r.
Proof.
  destruct r as [i cells]. unfold clean_upto. simpl. f_equal.
  apply list_eq. intros k. rewrite list_lookup_imap.
  destruct (cells !! k); simpl; [|done].
  unfold clean_cell_in. by rewrite bool_decide_eq_false_2 by lia.
Qed.

Lemma clean_upto_S (raw : DataFrame) a r :
  clean_upto raw (S a) r =
    if dtype_is_object a raw
    then ((clean_upto raw a r).1, alter str_clean_cell a (clean_upto raw a r).2)
    else clean_upto raw a r.
Proof.
  destruct r as [i cells]. unfold clean_upto. simpl.
  destruct (dtype_is_object a raw) eqn:Hobj; f_equal; apply list_eq; intros k.
  - destruct (decide (a = k)) as [<-|Hk].
    + rewrite list_lookup_alter_eq, !list_lookup_imap.
      destruct (cells !! a) as [c|]; simpl; [|done]. f_equal.
      unfold clean_cell_in. rewrite bool_decide_eq_true_2 by lia.
      rewrite bool_decide_eq_false_2 by lia. by rewrite Hobj.
    + rewrite list_lookup_alter_ne by done. rewrite !list_lookup_imap.
      destruct (cells !! k) as [c|]; simpl; [|done]. f_equal.
      unfold clean_cell_in. destruct (decide (k < a)).
      * by rewrite !bool_decide_eq_true_2 by lia.
      * by rewrite !bool_decide_eq_false_2 by lia.
  - rewrite !list_lookup_imap.
    destruct (cells !! k) as [c|]; simpl; [|done]. f_equal.
    unfold clean_cell_in.
    destruct (decide (k = a)) as [->|].
    + rewrite Hobj, andb_false_r, andb_false_r. done.
    + destruct (decide (k < a)).
      * by rewrite !bool_decide_eq_true_2 by lia.
      * by rewrite !bool_decide_eq_false_2 by lia.
Qed.

Lemma clean_step_columns (d : DataFrame) j : columns (clean_step d j) = columns d.
Proof. unfold clean_step. by destruct (dtype_is_object j d). Qed.

(** The state of the frame after the loop has passed [a] columns. *)
Lemma clean_step_rows (raw d : DataFrame) a :
  rows d = map (clean_upto raw a) (rows raw) →
  rows (clean_step d a) = map (clean_upto raw (S a)) (rows raw).
Proof.
  intros Hd.
  assert (dtype_is_object a d = dtype_is_object a raw) as Hobj.
  { unfold dtype_is_object, series. rewrite Hd, List.map_map.
    f_equal. apply List.map_ext. intros r. by apply cell_at_clean_upto_ge. }
  unfold clean_step. rewrite Hobj.
  destruct (dtype_is_object a raw) eqn:Ha; simpl.
  - rewrite Hd, List.map_map. apply List.map_ext. intros r.
    by rewrite clean_upto_S, Ha.
  - rewrite Hd. apply List.map_ext. intros r. by rewrite clean_upto_S, Ha.
Qed.

Lemma clean_fold (raw : DataFrame) m : ∀ a (d : DataFrame),
  rows d = map (clean_upto raw a) (rows raw) →
  rows (foldl clean_step d (seq a m)) = map (clean_upto raw (a + m)) (rows raw)
  ∧ columns (foldl clean_step d (seq a m)) = columns d.
Proof.
  induction m as [|m IH]; intros a d Hd; simpl.
  - by rewrite Nat.add_0_r.
  - destruct (IH (S a) (clean_step d a)) as [Hr Hc].
    { by apply clean_step_rows. }
    rewrite Hr, Hc, clean_step_columns. split; [|done].
    by replace (a + S m) with (S a + m) by lia.
Qed.

(** With distinct labels the loop runs through and visits the columns in
    order. *)
Lemma clean_values_NoDup cols : ∀ pre (d : DataFrame),
  columns d = pre ++ cols → NoDup (columns d) →
  clean_values cols d = Ok (foldl clean_step d (seq (List.length pre) (List.length cols))).
Proof.
  induction cols as [|col rest IH]; intros pre d Hc Hnd; simpl; [done|].
  rewrite (locate_NoDup d (List.length pre) col Hnd).
  2:{ rewrite Hc. rewrite lookup_app_r by lia. by rewrite Nat.sub_diag. }
  fold (clean_step d (List.length pre)).
  rewrite (IH (pre ++ [col])).
  - rewrite length_app. simpl. by rewrite Nat.add_1_r.
  - rewrite clean_step_columns, Hc, <- app_assoc. done.
  - by rewrite clean_step_columns.
Qed.

(** The loop only runs through when every label it meets is there once. *)
Lemma clean_values_Ok cols : ∀ (d d' : DataFrame),
  clean_values cols d = Ok d' →
  ∀ col, col ∈ cols → count_occ string_dec (columns d) col = 1.
Proof.
  induction cols as [|c rest IH]; intros d d' H col Hin.
  - by apply elem_of_nil in Hin.
  - simpl in H. destruct (locate c d) as [|j|] eqn:Hl; try done.
    apply elem_of_cons in Hin as [->|Hin].
    + by eapply locate_Unique_count.
    + fold (clean_step d j) in H.
      rewrite <- (clean_step_columns d j). by eapply IH.
Qed.

Lemma bind_Ok {A B} (a : A) (f : A → result B) : (Ok a ≫= f) = f a.
Proof. reflexivity. Qed.

Lemma bind_Ok_inv {A B} (m : result A) (f : A → result B) b :
  m ≫= f = Ok b → ∃ a, m = Ok a ∧ f a = Ok b.
Proof. destruct m as [a|e]; [eauto | discriminate]. Qed.

Lemma clean_upto_clean_columns (raw : DataFrame) a r :
  clean_upto (clean_columns raw) a r = clean_upto raw a r.
Proof. reflexivity. Qed.

(** The loop of lines 38-40 on the frame with cleaned labels. *)
Lemma clean_values_rows (raw : DataFrame) :
  NoDup (map PyStr.clean_header (columns raw)) →
  ∃ d, clean_values (columns (clean_columns raw)) (clean_columns raw) = Ok d
       ∧ columns d = map PyStr.clean_header (columns raw)
       ∧ rows d = map (clean_row raw) (rows raw).
Proof.
  intros Hnd.
  destruct (clean_fold (clean_columns raw)
              (List.length (map PyStr.clean_header (columns raw))) 0
              (clean_columns raw)) as [Hr Hc].
  { simpl. rewrite <- (List.map_id (rows raw)) at 1.
    apply List.map_ext. intros r. by rewrite clean_upto_0. }
  eexists. split; [|split].
  - by apply (clean_values_NoDup _ []).
  - simpl. exact Hc.
  - simpl. simpl in Hr. rewrite Hr. rewrite length_map. done.
Qed.

Lemma to_numeric_column_Unique col (d : DataFrame) j :
  locate col d = Unique j →
  to_numeric_column parse_num col d = Ok (assign j (to_numeric_cell parse_num) d).
Proof. unfold to_numeric_column. by intros ->. Qed.

(** The loader runs through on distinct labels that include the two numeric
    columns, and returns the cleaned and coerced rows that are complete. *)
Lemma load_and_clean_data_loaded (raw : DataFrame) ja js :
  NoDup (map PyStr.clean_header (columns raw)) →
  map PyStr.clean_header (columns raw) !! ja = Some "Average score" →
  map PyStr.clean_header (columns raw) !! js = Some "Standard deviation" →
  load_and_clean_data parse_num raw = Ok (loaded raw ja js).
Proof.
  intros Hnd Ha Hs. unfold load_and_clean_data.
  destruct (clean_values_rows raw Hnd) as (d & -> & Hc & Hr).
  rewrite bind_Ok.
  rewrite (to_numeric_column_Unique _ d ja).
  2:{ apply locate_NoDup; by rewrite Hc. }
  rewrite bind_Ok.
  rewrite (to_numeric_column_Unique _ _ js).
  2:{ apply locate_NoDup; simpl; by rewrite Hc. }
  rewrite bind_Ok. unfold dropna. simpl.
  rewrite (locate_NoDup _ ja "Average score") by (simpl; by rewrite Hc).
  rewrite (locate_NoDup _ js "Standard deviation") by (simpl; by rewrite Hc).
  rewrite !bind_Ok. unfold loaded. rewrite Hc. do 2 f_equal.
  rewrite Hr, !List.map_map. done.
Qed.

(** Conversely, a frame comes back only in that case. *)
Lemma load_and_clean_data_inv (raw df : DataFrame) :
  load_and_clean_data parse_num raw = Ok df →
  NoDup (map PyStr.clean_header (columns raw)) ∧
  ∃ ja js,
    map PyStr.clean_header (columns raw) !! ja = Some "Average score" ∧
    map PyStr.clean_header (columns raw) !! js = Some "Standard deviation" ∧
    df = loaded raw ja js.
Proof.
  intros H. assert (NoDup (map PyStr.clean_header (columns raw))) as Hnd.
  { unfold load_and_clean_data in H.
    apply bind_Ok_inv in H as (d & Hd & _).
    pose proof (clean_values_Ok _ _ _ Hd) as Hcount. simpl in Hcount.
    apply NoDup_ListNoDup, (List.NoDup_count_occ string_dec). intros col.
    destruct (decide (col ∈ map PyStr.clean_header (columns raw))) as [Hin|Hin].
    - rewrite Hcount; done.
    - rewrite (proj1 (List.count_occ_not_In string_dec _ col)); [lia|].
      by rewrite <- list_elem_of_In. }
  split; [done|].
  pose proof H as H'. unfold load_and_clean_data in H'.
  destruct (clean_values_rows raw Hnd) as (d & Hd & Hc & Hr).
  rewrite Hd, bind_Ok in H'.
  apply bind_Ok_inv in H' as (d2 & Hd2 & H').
  unfold to_numeric_column in Hd2.
  destruct (locate "Average score" d) as [|ja|] eqn:Hla; try done.
  apply bind_Ok_inv in H' as (d3 & Hd3 & H').
  unfold to_numeric_column in Hd3.
  destruct (locate "Standard deviation" d2) as [|js|] eqn:Hls; try done.
  apply locate_Unique_lookup in Hla, Hls.
  injection Hd2 as <-. simpl in Hls. rewrite Hc in Hla, Hls.
  exists ja, js. split; [done|]. split; [done|].
  rewrite (load_and_clean_data_loaded raw ja js) in H by done.
  by injection H.
Qed.

(** Hence no label of a frame the loader returned is doubled, and the
    later stages never index such a frame through a doubled label. *)
Lemma load_no_duplicates (raw df : DataFrame) col :
  load_and_clean_data parse_num raw = Ok df → locate col df ≠ Duplicated.
Proof.
  intros (Hnd & ja & js & _ & _ & ->)%load_and_clean_data_inv.
  unfold locate. simpl.
  pose proof (positions_length col (map PyStr.clean_header (columns raw)) 0) as Hlen.
  apply NoDup_ListNoDup in Hnd.
  pose proof (proj1 (List.NoDup_count_occ string_dec _) Hnd col) as Hle.
  destruct (positions col (map PyStr.clean_header (columns raw)) 0)
    as [|j [|k l]]; try done.
  simpl in Hlen. lia.
Qed.

Lemma notna_to_numeric_cell c :
  notna (to_numeric_cell parse_num c) =
    match c with
    | CStr s => bool_decide (is_Some (parse_num s))
    | CNum _ => true
    | CNaN => false
    end.
Proof.
  destruct c as [s| |]; simpl; try done.
  by destruct (parse_num s).
Qed.

Lemma cell_at_clean_row (raw : DataFrame) j r :
  j < List.length (columns raw) → cell_at j (clean_row raw r) = trimmed raw j r.
Proof.
  intros Hj. unfold cell_at, clean_row, clean_upto, trimmed, cell_at. simpl.
  rewrite list_lookup_imap. unfold clean_cell_in.
  rewrite bool_decide_eq_true_2 by done. simpl.
  destruct (r.2 !! j); simpl; [done|]. by destruct (dtype_is_object j raw).
Qed.

Lemma cell_at_alter_eq (f : cell → cell) j (i : nat) (cells : list cell) :
  f CNaN = CNaN → cell_at j (i, alter f j cells) = f (cell_at j (i, cells)).
Proof.
  intros Hf. unfold cell_at. simpl. rewrite list_lookup_alter_eq.
  by destruct (cells !! j).
Qed.

Lemma cell_at_alter_ne (f : cell → cell) k j (i : nat) (cells : list cell) :
  k ≠ j → cell_at j (i, alter f k cells) = cell_at j (i, cells).
Proof. intros Hne. unfold cell_at. simpl. by rewrite list_lookup_alter_ne. Qed.

Lemma cell_at_label j (i : nat) (r : nat * list cell) :
  cell_at j (i, r.2) = cell_at j r.
Proof. reflexivity. Qed.

(** The two numeric cells of a cleaned and coerced row. *)
Lemma cell_at_normal_row_ja (raw : DataFrame) ja js r :
  ja < List.length (columns raw) → ja ≠ js →
  cell_at ja (normal_row raw ja js r) = to_numeric_cell parse_num (trimmed raw ja r).
Proof.
  intros Hlt Hne. unfold normal_row, coerce_row.
  rewrite cell_at_alter_ne by done.
  rewrite cell_at_alter_eq by done.
  by rewrite cell_at_label, cell_at_clean_row.
Qed.

Lemma cell_at_normal_row_js (raw : DataFrame) ja js r :
  js < List.length (columns raw) → ja ≠ js →
  cell_at js (normal_row raw ja js r) = to_numeric_cell parse_num (trimmed raw js r).
Proof.
  intros Hlt Hne. unfold normal_row, coerce_row.
  rewrite cell_at_alter_eq by done.
  rewrite cell_at_alter_ne by done.
  by rewrite cell_at_label, cell_at_clean_row.
Qed.

(** The other cells are the cleaned ones. *)
Lemma cell_at_normal_row_other (raw : DataFrame) ja js k r :
  k ≠ ja → k ≠ js →
  cell_at k (normal_row raw ja js r) = cell_at k (clean_row raw r).
Proof.
  intros Ha Hs. unfold normal_row, coerce_row.
  rewrite !cell_at_alter_ne by done. apply cell_at_label.
Qed.

(** The mask of [dropna] on a cleaned and coerced row is the test on the
    row of the file. *)
Lemma complete_at_normal_row (raw : DataFrame) ja js r :
  ja < List.length (columns raw) → js < List.length (columns raw) → ja ≠ js →
  complete_at [ja; js] (normal_row raw ja js r)
  = parses_numeric raw ja r && parses_numeric raw js r.
Proof.
  intros Ha Hs Hne. unfold complete_at. simpl.
  rewrite cell_at_normal_row_ja, cell_at_normal_row_js by done.
  rewrite !notna_to_numeric_cell, andb_true_r. reflexivity.
Qed.

(** The positions of the two numeric labels are in range and differ. *)
Lemma numeric_positions (cols : list string) ja js :
  cols !! ja = Some "Average score" → cols !! js = Some "Standard deviation" →
  ja < List.length cols ∧ js < List.length cols ∧ ja ≠ js.
Proof.
  intros Ha Hs. split; [by eapply lookup_lt_Some|].
  split; [by eapply lookup_lt_Some|]. intros ->. congruence.
Qed.

(** The rows of the loaded frame are the rows of the file that pass the
    test, cleaned and coerced, in the order of the file. *)
Lemma loaded_rows (raw : DataFrame) ja js :
  map PyStr.clean_header (columns raw) !! ja = Some "Average score" →
  map PyStr.clean_header (columns raw) !! js = Some "Standard deviation" →
  rows (loaded raw ja js) =
    map (normal_row raw ja js)
      (List.filter (λ r, parses_numeric raw ja r && parses_numeric raw js r) (rows raw)).
Proof.
  intros Ha Hs.
  destruct (numeric_positions _ _ _ Ha Hs) as (Hja & Hjs & Hne).
  rewrite length_map in Hja, Hjs.
  unfold loaded. simpl. rewrite List.filter_map_swap. f_equal.
  apply List.filter_ext. intros r. by apply complete_at_normal_row.
Qed.

Lemma dtype_is_object_intro (df : DataFrame) k r s :
  r ∈ rows df → cell_at k r = CStr s → dtype_is_object k df = true.
Proof.
  intros Hr Hc. unfold dtype_is_object, series.
  apply List.existsb_exists. exists (cell_at k r). split.
  - apply List.in_map. by apply list_elem_of_In.
  - by rewrite Hc.
Qed.

Lemma dtype_is_object_elim (df : DataFrame) k :
  dtype_is_object k df = true → ∃ r s, r ∈ rows df ∧ cell_at k r = CStr s.
Proof.
  unfold dtype_is_object, series. intros (c & Hin & Hc)%List.existsb_exists.
  apply List.in_map_iff in Hin as (r & <- & Hr).
  destruct (cell_at k r) as [s| |] eqn:E; try done.
  exists r, s. split; [by apply list_elem_of_In | done].
Qed.

(** In a column of one type the test is the test on the cell of the file. *)
Lemma parses_numeric_uniform (raw : DataFrame) j r :
  uniform raw j → r ∈ rows raw →
  parses_numeric raw j r = numeric_field parse_num (cell_at j r).
Proof.
  intros Hu Hr. unfold parses_numeric, trimmed.
  destruct (dtype_is_object j raw) eqn:Hobj.
  - destruct (cell_at j r) as [s|x|] eqn:E; simpl; try done.
    by destruct (Hu Hobj r x Hr).
  - destruct (cell_at j r) as [s|x|] eqn:E; simpl; try done.
    by rewrite (dtype_is_object_intro raw j r s) in Hobj.
Qed.

Lemma fst_normal_row (raw : DataFrame) ja js r : (normal_row raw ja js r).1 = r.1.
Proof. reflexivity. Qed.

(** X24: what the loader keeps, on every frame it accepts.  The rows of the
    result are the rows of the file whose [Average score] and
    [Standard deviation] fields are both numeric once lines 38-40 have
    cleaned them, cleaned and coerced, and their number is the number of
    rows of the file minus the number of rows that fail this test.  After
    lines 38-40 a field is numeric when it is a string that parses once
    trimmed and de-quoted, or a number in a column that holds no string; a
    number in a column that holds a string has become a missing value.  So
    in a column of one type the test is the test on the field itself: a
    string parses once trimmed and de-quoted, a number passes, a missing
    value fails. *)
Theorem rows_retained_iff_numeric (raw df : DataFrame) :
  load_and_clean_data parse_num raw = Ok df →
  ∃ ja js,
    columns df !! ja = Some "Average score" ∧
    columns df !! js = Some "Standard deviation" ∧
    rows df =
      map (normal_row raw ja js)
        (List.filter (λ r, parses_numeric raw ja r && parses_numeric raw js r)
           (rows raw)) ∧
    (∀ r, r ∈ rows raw →
       (normal_row raw ja js r ∈ rows df ↔
        parses_numeric raw ja r = true ∧ parses_numeric raw js r = true)) ∧
    List.length (rows df) =
      List.length (rows raw) - List.length (List.filter (malformed raw ja js) (rows raw)) ∧
    (∀ j r, uniform raw j → r ∈ rows raw →
       parses_numeric raw j r = numeric_field parse_num (cell_at j r)).
Proof.
  intros (Hnd & ja & js & Ha & Hs & ->)%load_and_clean_data_inv.
  exists ja, js.
  destruct (numeric_positions _ _ _ Ha Hs) as (Hja & Hjs & Hne).
  rewrite length_map in Hja, Hjs.
  split; [done|]. split; [done|]. split; [by apply loaded_rows|].
  cut (∀ P Q R : Prop, P → Q → R → P ∧ Q ∧ R); [|tauto]. intros Hand.
  apply Hand; [| |by apply parses_numeric_uniform].
  - intros r Hr. unfold loaded. simpl.
    rewrite list_elem_of_In, List.filter_In, complete_at_normal_row by done.
    rewrite andb_true_iff. split; [tauto|]. intros H. split; [|done].
    apply List.in_map. by apply list_elem_of_In.
  - rewrite loaded_rows, length_map by done.
    pose proof (List.filter_length
      (λ r, parses_numeric raw ja r && parses_numeric raw js r) (rows raw)) as Hl.
    erewrite (List.filter_ext (malformed raw ja js)).
    2:{ intros r. unfold malformed. symmetry. apply negb_andb. }
    lia.
Qed.

(** C10: the loader never reorders: the rows it returns are a subsequence
    of the cleaned and coerced rows of the file, their index labels are a
    subsequence of the labels of the file, and increasing labels stay
    increasing. *)
Theorem C10_order_preserved (raw df : DataFrame) :
  load_and_clean_data parse_num raw = Ok df →
  ∃ ja js,
    rows df `sublist_of` map (normal_row raw ja js) (rows raw) ∧
    map fst (rows df) `sublist_of` map fst (rows raw) ∧
    (StronglySorted lt (map fst (rows raw)) →
     StronglySorted lt (map fst (rows df))).
Proof.
  intros (Hnd & ja & js & Ha & Hs & ->)%load_and_clean_data_inv.
  exists ja, js.
  assert (map fst (rows (loaded raw ja js)) `sublist_of` map fst (rows raw)) as Hsub.
  { rewrite loaded_rows by done. rewrite List.map_map.
    erewrite List.map_ext; [|apply fst_normal_row].
    apply (fmap_sublist fst). apply filter_sublist_of. }
  split; [|split; [done|]].
  - unfold loaded. simpl. apply filter_sublist_of.
  - by apply StronglySorted_sublist.
Qed.

(** ** Loading what was loaded *)

Lemma is_str_to_numeric_cell c : is_str (to_numeric_cell parse_num c) = false.
Proof. destruct c as [s| |]; simpl; try done. by destruct (parse_num s). Qed.

Lemma to_numeric_cell_not_str c : is_str c = false → to_numeric_cell parse_num c = c.
Proof. by destruct c. Qed.

Lemma trimmed_kind (raw : DataFrame) k r :
  r ∈ rows raw →
  trimmed raw k r = CNaN ∨ (∃ x, trimmed raw k r = CNum x ∧ dtype_is_object k raw = false)
  ∨ (∃ s, trimmed raw k r = CStr s ∧ dtype_is_object k raw = true).
Proof.
  intros Hr. unfold trimmed.
  destruct (dtype_is_object k raw) eqn:Hobj.
  - destruct (cell_at k r); simpl; eauto.
  - destruct (cell_at k r) as [s| |] eqn:E; eauto.
    by rewrite (dtype_is_object_intro raw k r s) in Hobj.
Qed.

Lemma elem_of_loaded (raw : DataFrame) ja js r :
  r ∈ rows (loaded raw ja js) →
  ∃ r0, r0 ∈ rows raw ∧ r = normal_row raw ja js r0
        ∧ complete_at [ja; js] r = true.
Proof.
  unfold loaded. simpl. rewrite list_elem_of_In, List.filter_In, List.in_map_iff.
  intros [(r0 & <- & Hr0) Hc]. exists r0. by rewrite list_elem_of_In.
Qed.

(** A cell under a label of the loaded frame: a number in the two numeric
    columns; elsewhere a cleaned string or nothing where the file had a
    column of strings, and what the file had where it had none. *)
Lemma loaded_cell (raw : DataFrame) ja js r k :
  map PyStr.clean_header (columns raw) !! ja = Some "Average score" →
  map PyStr.clean_header (columns raw) !! js = Some "Standard deviation" →
  r ∈ rows (loaded raw ja js) → k < List.length (columns raw) →
  ((k = ja ∨ k = js) ∧ ∃ x, cell_at k r = CNum x)
  ∨ (k ≠ ja ∧ k ≠ js ∧
     (cell_at k r = CNaN
      ∨ (∃ x, cell_at k r = CNum x ∧ dtype_is_object k raw = false)
      ∨ (∃ s, cell_at k r = CStr s ∧ dtype_is_object k raw = true))).
Proof.
  intros Ha Hs (r0 & Hr0 & -> & Hc)%elem_of_loaded Hk.
  destruct (numeric_positions _ _ _ Ha Hs) as (Hja & Hjs & Hne).
  rewrite length_map in Hja, Hjs.
  unfold complete_at in Hc. simpl in Hc.
  apply andb_prop in Hc as [Hca Hcs]. apply andb_prop in Hcs as [Hcs _].
  destruct (decide (k = ja)) as [->|Hka].
  { left. split; [by left|].
    pose proof (is_str_to_numeric_cell (trimmed raw ja r0)) as Hstr.
    rewrite <- (cell_at_normal_row_ja raw ja js) in Hstr by done.
    destruct (cell_at ja (normal_row raw ja js r0)); try done. eauto. }
  destruct (decide (k = js)) as [->|Hks].
  { left. split; [by right|].
    pose proof (is_str_to_numeric_cell (trimmed raw js r0)) as Hstr.
    rewrite <- (cell_at_normal_row_js raw ja js) in Hstr by done.
    destruct (cell_at js (normal_row raw ja js r0)); try done. eauto. }
  right. split; [done|]. split; [done|].
  rewrite cell_at_normal_row_other, cell_at_clean_row by done.
  by apply trimmed_kind.
Qed.

Lemma loaded_dtype (raw : DataFrame) ja js k :
  map PyStr.clean_header (columns raw) !! ja = Some "Average score" →
  map PyStr.clean_header (columns raw) !! js = Some "Standard deviation" →
  k < List.length (columns raw) →
  dtype_is_object k (loaded raw ja js) = true →
  k ≠ ja ∧ k ≠ js ∧ dtype_is_object k raw = true.
Proof.
  intros Ha Hs Hk (r & s & Hr & Hc)%dtype_is_object_elim.
  destruct (loaded_cell raw ja js r k Ha Hs Hr Hk)
    as [[_ [x Hx]]|(? & ? & [H|[(x & H & _)|(s' & H & Hobj)]])]; try congruence.
  done.
Qed.

Lemma loaded_not_object (raw : DataFrame) ja js k :
  map PyStr.clean_header (columns raw) !! ja = Some "Average score" →
  map PyStr.clean_header (columns raw) !! js = Some "Standard deviation" →
  k < List.length (columns raw) → k = ja ∨ k = js →
  dtype_is_object k (loaded raw ja js) = false.
Proof.
  intros Ha Hs Hk Hor.
  destruct (dtype_is_object k (loaded raw ja js)) eqn:E; [|done].
  apply loaded_dtype in E as (? & ? & _); try done. by destruct Hor.
Qed.

(** On a settled frame that was loaded, cleaning and coercing a row again
    changes nothing. *)
Lemma normal_row_loaded (raw : DataFrame) ja js r :
  map PyStr.clean_header (columns raw) !! ja = Some "Average score" →
  map PyStr.clean_header (columns raw) !! js = Some "Standard deviation" →
  settled (loaded raw ja js) →
  r ∈ rows (loaded raw ja js) →
  normal_row (loaded raw ja js) ja js r = r.
Proof.
  intros Ha Hs [_ Hset] Hr.
  destruct (numeric_positions _ _ _ Ha Hs) as (Hja & Hjs & Hne).
  rewrite length_map in Hja, Hjs.
  assert (List.length (columns (loaded raw ja js)) = List.length (columns raw)) as Hn.
  { simpl. by rewrite length_map. }
  assert (∀ k c, r.2 !! k = Some c → cell_at k r = c) as Hcell.
  { intros k c E. unfold cell_at. by rewrite E. }
  destruct r as [i cells]. unfold normal_row, coerce_row, clean_row, clean_upto.
  simpl fst. simpl snd. f_equal. apply list_eq. intros k.
  assert (∀ c, cells !! k = Some c →
            clean_cell_in (loaded raw ja js)
              (List.length (columns (loaded raw ja js))) k c = c) as Hclean.
  { intros c E. unfold clean_cell_in. rewrite Hn.
    destruct (bool_decide (k < List.length (columns raw))) eqn:Hk; [|done].
    apply bool_decide_eq_true_1 in Hk.
    destruct (dtype_is_object k (loaded raw ja js)) eqn:Hobj; [|done].
    simpl. apply loaded_dtype in Hobj as (Hka & Hks & Hraw); try done.
    specialize (Hcell k c E).
    destruct (loaded_cell raw ja js (i, cells) k Ha Hs Hr Hk)
      as [[[?|?] _]|(_ & _ & [H|[(x & H & Hx)|(s & H & _)]])];
      try (exfalso; congruence).
    - by rewrite <- Hcell, H.
    - rewrite <- Hcell, H. simpl. f_equal.
      eapply (Hset (i, cells) k); [done|by rewrite Hn|done]. }
  assert (∀ c, cells !! k = Some c → k = ja ∨ k = js →
            to_numeric_cell parse_num c = c) as Hnum.
  { intros c E Hor. apply to_numeric_cell_not_str.
    assert (k < List.length (columns raw)) as Hk by (destruct Hor; by subst).
    specialize (Hcell k c E).
    destruct (loaded_cell raw ja js (i, cells) k Ha Hs Hr Hk)
      as [[_ [x Hx]]|(? & ? & _)].
    - by rewrite <- Hcell, Hx.
    - destruct Hor; done. }
  destruct (decide (js = k)) as [<-|Hks].
  - rewrite list_lookup_alter_eq, list_lookup_alter_ne, list_lookup_imap by done.
    destruct (cells !! js) as [c|] eqn:E; simpl; [|done].
    rewrite Hclean by done. rewrite Hnum; auto.
  - rewrite list_lookup_alter_ne by done.
    destruct (decide (ja = k)) as [<-|Hka].
    + rewrite list_lookup_alter_eq, list_lookup_imap.
      destruct (cells !! ja) as [c|] eqn:E; simpl; [|done].
      rewrite Hclean by done. rewrite Hnum; auto.
    + rewrite list_lookup_alter_ne, list_lookup_imap by done.
      destruct (cells !! k) as [c|] eqn:E; simpl; [|done].
      by rewrite Hclean.
Qed.

Lemma settled_columns (df : DataFrame) :
  settled df → map PyStr.clean_header (columns df) = columns df.
Proof.
  intros [Hcol _]. rewrite <- (List.map_id (columns df)) at 2.
  apply List.map_ext_in. intros col Hin. apply Hcol. by apply list_elem_of_In.
Qed.

(** A settled frame that was loaded is loaded to itself. *)
Lemma load_settled (raw : DataFrame) ja js :
  NoDup (map PyStr.clean_header (columns raw)) →
  map PyStr.clean_header (columns raw) !! ja = Some "Average score" →
  map PyStr.clean_header (columns raw) !! js = Some "Standard deviation" →
  settled (loaded raw ja js) →
  load_and_clean_data parse_num (loaded raw ja js) = Ok (loaded raw ja js).
Proof.
  intros Hnd Ha Hs Hset.
  pose proof (settled_columns _ Hset) as Hcols.
  rewrite (load_and_clean_data_loaded (loaded raw ja js) ja js).
  2:{ by rewrite Hcols. }
  2:{ by rewrite Hcols. }
  2:{ by rewrite Hcols. }
  f_equal. unfold loaded at 1. rewrite Hcols.
  change (map PyStr.clean_header (columns raw)) with (columns (loaded raw ja js)).
  set (D := loaded raw ja js) in *.
  assert (map (normal_row D ja js) (rows D) = rows D) as ->.
  { rewrite <- (List.map_id (rows D)) at 2.
    apply List.map_ext_in. intros r Hr.
    apply normal_row_loaded; try done. by apply list_elem_of_In. }
  assert (List.filter (complete_at [ja; js]) (rows D) = rows D) as ->.
  { apply List.forallb_filter_id. unfold D, loaded. simpl.
    apply List.forallb_filter. }
  by destruct D.
Qed.

(** A frame that is loaded to itself is settled. *)
Lemma load_fixed_settled (df : DataFrame) :
  load_and_clean_data parse_num df = Ok df → settled df.
Proof.
  intros (Hnd & ja & js & Ha & Hs & Heq)%load_and_clean_data_inv.
  destruct (numeric_positions _ _ _ Ha Hs) as (Hja & Hjs & Hne).
  rewrite length_map in Hja, Hjs.
  assert (map PyStr.clean_header (columns df) = columns df) as Hcols.
  { by rewrite Heq at 2. }
  assert (∀ r, r ∈ rows df → normal_row df ja js r = r) as Hrow.
  { apply map_fixed.
    assert (rows df =
              List.filter (complete_at [ja; js]) (map (normal_row df ja js) (rows df)))
      as Hrows by (by rewrite Heq at 1).
    transitivity
      (List.filter (complete_at [ja; js]) (map (normal_row df ja js) (rows df)));
      [|done].
    symmetry. apply filter_all_length. rewrite <- Hrows. by rewrite length_map. }
  split.
  - by apply map_fixed.
  - intros r k s Hr Hk Hc.
    assert (dtype_is_object k df = true) as Hobj
      by (by eapply dtype_is_object_intro).
    pose proof Hc as Hc'. rewrite <- (Hrow r Hr) in Hc'.
    destruct (decide (k = ja)) as [->|Hka].
    { rewrite cell_at_normal_row_ja in Hc' by done.
      pose proof (is_str_to_numeric_cell (trimmed df ja r)) as Hstr.
      by rewrite Hc' in Hstr. }
    destruct (decide (k = js)) as [->|Hks].
    { rewrite cell_at_normal_row_js in Hc' by done.
      pose proof (is_str_to_numeric_cell (trimmed df js r)) as Hstr.
      by rewrite Hc' in Hstr. }
    rewrite cell_at_normal_row_other, cell_at_clean_row in Hc' by done.
    unfold trimmed in Hc'. rewrite Hobj, Hc in Hc'. simpl in Hc'. congruence.
Qed.

(** C6, amended: loading the frame the loader returned gives that frame
    again exactly when it is settled, that is when the cleaning of lines 37
    and 40 leaves every label and every string under a label as it is. *)
Theorem C6_idempotent_iff_settled (raw df : DataFrame) :
  load_and_clean_data parse_num raw = Ok df →
  (load_and_clean_data parse_num df = Ok df ↔ settled df).
Proof.
  intros (Hnd & ja & js & Ha & Hs & ->)%load_and_clean_data_inv. split.
  - apply load_fixed_settled.
  - by apply load_settled.
Qed.

End LoaderFacts.

(** ** The ranking *)

Section RankingFacts.

Context {num : Type}.
Context (num_leb : num → num → bool).

(** The comparison of float64 values that are not NaN is total and
    transitive. *)
Hypothesis num_leb_total : ∀ x y, num_leb x y = true ∨ num_leb y x = true.
Hypothesis num_leb_trans :
  ∀ x y z, num_leb x y = true → num_leb y z = true → num_leb x z = true.

Local Abbreviation cell := (cell num).
Local Abbreviation DataFrame := (DataFrame num).
Local Abbreviation ge_at := (ge_at num_leb).
Local Abbreviation tie := (tie num_leb).

Lemma score_ge_total a b :
  score_ge num_leb a b = true ∨ score_ge num_leb b a = true.
Proof. destruct a, b; simpl; auto. Qed.

Lemma score_ge_trans a b c :
  score_ge num_leb a b = true → score_ge num_leb b c = true →
  score_ge num_leb a c = true.
Proof. destruct a, b, c; simpl; try done. eauto. Qed.

Lemma insert_desc_perm j r l : insert_desc num_leb j r l ≡ₚ r :: l.
Proof.
  induction l as [|r' l IH]; simpl; [done|].
  destruct (score_ge num_leb (score j r) (score j r')); [done|].
  rewrite IH. apply Permutation_swap.
Qed.

Lemma sort_desc_perm j l : sort_desc num_leb j l ≡ₚ l.
Proof.
  induction l as [|r l IH]; simpl; [done|].
  by rewrite insert_desc_perm, IH.
Qed.

Lemma insert_desc_sorted j r l :
  StronglySorted (ge_at j) l → StronglySorted (ge_at j) (insert_desc num_leb j r l).
Proof.
  induction l as [|r' l IH]; intros Hl; simpl.
  - repeat constructor.
  - apply StronglySorted_inv in Hl as [Hl Hr'].
    destruct (score_ge num_leb (score j r) (score j r')) eqn:E.
    + constructor; [by constructor|]. constructor; [done|].
      eapply Forall_impl; [exact Hr'|]. intros b Hb. unfold ge_at in *.
      by eapply score_ge_trans.
    + constructor; [auto|]. rewrite insert_desc_perm. constructor; [|done].
      unfold ge_at. destruct (score_ge_total (score j r) (score j r')); congruence.
Qed.

Lemma sort_desc_sorted j l : StronglySorted (ge_at j) (sort_desc num_leb j l).
Proof.
  induction l as [|r l IH]; simpl; [constructor|]. by apply insert_desc_sorted.
Qed.

(** Insertion keeps the rows of any one score in their order, with the new
    row, which came first, in front. *)
Lemma insert_desc_stable j x r l :
  List.filter (tie j x) (insert_desc num_leb j r l)
  = List.filter (tie j x) (r :: l).
Proof.
  induction l as [|r' l IH]; [done|].
  simpl insert_desc.
  destruct (score_ge num_leb (score j r) (score j r')) eqn:E; [done|].
  change (List.filter (tie j x) (r' :: insert_desc num_leb j r l))
    with (if tie j x r' then r' :: List.filter (tie j x) (insert_desc num_leb j r l)
          else List.filter (tie j x) (insert_desc num_leb j r l)).
  rewrite IH. simpl.
  destruct (tie j x r) eqn:Hr, (tie j x r') eqn:Hr'; try done.
  exfalso. unfold tie in *.
  apply andb_prop in Hr as [_ Hr]. apply andb_prop in Hr' as [Hr' _].
  rewrite (score_ge_trans _ _ _ Hr Hr') in E. done.
Qed.

Lemma sort_desc_stable j x l :
  List.filter (tie j x) (sort_desc num_leb j l) = List.filter (tie j x) l.
Proof.
  induction l as [|r l IH]; [done|]. simpl sort_desc.
  rewrite insert_desc_stable. simpl. by rewrite IH.
Qed.

(** The first [n] rows of the stable descending sort: how many they are,
    their order, the order among ties, and that they are the largest. *)
Lemma take_sort_desc j n l :
  let top := take n (sort_desc num_leb j l) in
  List.length top = min (List.length l) n ∧
  StronglySorted (ge_at j) top ∧
  (∀ x, List.filter (tie j x) top `prefix_of` List.filter (tie j x) l) ∧
  top ⊆+ l ∧
  ∃ rest, top ++ rest ≡ₚ l ∧ ∀ a b, a ∈ top → b ∈ rest → ge_at j a b.
Proof.
  intros top. unfold top.
  pose proof (sort_desc_sorted j l) as Hs.
  rewrite <- (take_drop n (sort_desc num_leb j l)) in Hs.
  split; [|split; [|split; [|split]]].
  - rewrite length_take, (Permutation_length (sort_desc_perm j l)). lia.
  - by eapply StronglySorted_app_1_l.
  - intros x. rewrite <- (sort_desc_stable j x l). apply filter_prefix_take.
  - rewrite <- (sort_desc_perm j l) at 2. apply submseteq_take.
  - exists (drop n (sort_desc num_leb j l)). split.
    + rewrite take_drop. apply sort_desc_perm.
    + intros a b Ha Hb. by eapply StronglySorted_app_1_elem_of.
Qed.

End RankingFacts.

(** ** The filter *)

Section FilterFacts.

Context {num : Type}.
Local Abbreviation cell := (cell num).
Local Abbreviation DataFrame := (DataFrame num).

Lemma filter_filter_andb {A} (f g : A → bool) (l : list A) :
  List.filter g (List.filter f l) = List.filter (λ x, f x && g x) l.
Proof.
  induction l as [|x l IH]; [done|]. simpl.
  destruct (f x); simpl; [|done]. destruct (g x); by rewrite IH.
Qed.

Lemma filter_none {A} (f : A → bool) (l : list A) :
  (∀ x, x ∈ l → f x = false) → List.filter f l = [].
Proof.
  induction l as [|x l IH]; intros H; [done|]. simpl.
  rewrite (H x) by (apply elem_of_cons; by left).
  apply IH. intros y Hy. apply H. apply elem_of_cons. by right.
Qed.

Lemma select_eq_Unique col v (df : DataFrame) j :
  locate col df = Unique j →
  select_eq col v df =
    Ok {| columns := columns df;
          rows := List.filter (λ r, eq_str v (cell_at j r)) (rows df) |}.
Proof. unfold select_eq. by intros ->. Qed.

Lemma select_eq_inv col v (df view : DataFrame) :
  select_eq col v df = Ok view →
  columns view = columns df ∧ rows view `sublist_of` rows df.
Proof.
  unfold select_eq. destruct (locate col df); try done.
  intros [= <-]. simpl. split; [done|]. apply filter_sublist_of.
Qed.

(** The view has the labels of the frame and a subsequence of its rows. *)
Lemma filtered_df_inv sg se (df view : DataFrame) :
  filtered_df sg se df = Ok view →
  columns view = columns df ∧ rows view `sublist_of` rows df.
Proof.
  unfold filtered_df. intros (v1 & H1 & H2)%bind_Ok_inv.
  assert (columns v1 = columns df ∧ rows v1 `sublist_of` rows df) as [Hc1 Hr1].
  { destruct (String.eqb sg "All"); [by injection H1 as <-|].
    by apply select_eq_inv in H1. }
  assert (columns view = columns v1 ∧ rows view `sublist_of` rows v1) as [Hc2 Hr2].
  { destruct (String.eqb se "All"); [by injection H2 as <-|].
    by apply select_eq_inv in H2. }
  split; [congruence|]. by etrans.
Qed.

(** With both columns there, the two filters in a row are the one filter
    by both constraints. *)
Lemma filtered_df_both sg se (df : DataFrame) jg je :
  locate "Major groups" df = Unique jg →
  locate "mean_exposure_level" df = Unique je →
  filtered_df sg se df = Ok (apply_both sg se jg je df).
Proof.
  intros Hg He. unfold filtered_df, apply_both, holds.
  destruct (String.eqb sg "All") eqn:Eg, (String.eqb se "All") eqn:Ee;
    simpl; rewrite ?bind_Ok.
  - f_equal. destruct df as [c r]. simpl. f_equal.
    symmetry. apply List.forallb_filter_id.
    apply List.forallb_forall. done.
  - rewrite (select_eq_Unique _ _ _ je) by done. done.
  - rewrite (select_eq_Unique _ _ _ jg) by done. rewrite bind_Ok.
    do 2 f_equal. apply List.filter_ext. intros r. by rewrite andb_true_r.
  - rewrite (select_eq_Unique _ _ _ jg) by done. rewrite bind_Ok.
    rewrite (select_eq_Unique _ _ _ je) by done. simpl.
    by rewrite filter_filter_andb.
Qed.

(** C4: filtering by the major group and then by the exposure level gives
    what filtering by both selections gives, and with both columns in the
    frame that is the frame's rows that satisfy the first constraint AND the
    second. *)
Theorem C4_filters_compose (A B : string) (df : DataFrame) :
  (filtered_df A "All" df ≫= filtered_df "All" B) = filtered_df A B df ∧
  ∀ jg je,
    locate "Major groups" df = Unique jg →
    locate "mean_exposure_level" df = Unique je →
    filtered_df A B df = Ok (apply_both A B jg je df) ∧
    ∀ r, r ∈ rows (apply_both A B jg je df) ↔
         r ∈ rows df ∧ holds A (cell_at jg r) = true ∧ holds B (cell_at je r) = true.
Proof.
  split.
  - unfold filtered_df. simpl.
    destruct (String.eqb A "All"); simpl; [done|].
    by destruct (select_eq "Major groups" A df).
  - intros jg je Hg He. split; [by apply filtered_df_both|].
    intros r. unfold apply_both. simpl.
    rewrite list_elem_of_In, List.filter_In, andb_true_iff, <- list_elem_of_In.
    done.
Qed.

End FilterFacts.

(** ** The page: loader, filter, derivations and chat together *)

Section PageFacts.

Context {num : Type}.
Context (parse_num : string → option num).
Context (num_leb : num → num → bool).
Context (to_string : DataFrame num → string).

Hypothesis num_leb_total : ∀ x y, num_leb x y = true ∨ num_leb y x = true.
Hypothesis num_leb_trans :
  ∀ x y z, num_leb x y = true → num_leb y z = true → num_leb x z = true.

Local Abbreviation cell := (cell num).
Local Abbreviation DataFrame := (DataFrame num).

(** In a view of the loaded frame the scores are a numeric column. *)
Lemma view_scores (raw df : DataFrame) sg se view :
  load_and_clean_data parse_num raw = Ok df →
  filtered_df sg se df = Ok view →
  ∃ ja, columns view !! ja = Some "Average score" ∧
        locate "Average score" view = Unique ja ∧
        dtype_is_object ja view = false.
Proof.
  intros (Hnd & ja & js & Ha & Hs & ->)%load_and_clean_data_inv
         [Hc Hr]%filtered_df_inv.
  simpl in Hc. exists ja. split; [by rewrite Hc|]. split.
  - apply locate_NoDup; by rewrite Hc.
  - destruct (dtype_is_object ja view) eqn:E; [|done].
    apply dtype_is_object_elim in E as (r & s & Hin & Hcell).
    apply (sublist_subseteq _ _ Hr) in Hin.
    destruct (numeric_positions _ _ _ Ha Hs) as (Hja & _ & _).
    rewrite length_map in Hja.
    destruct (loaded_cell parse_num raw ja js r ja Ha Hs Hin Hja)
      as [[_ [x Hx]]|(? & _)]; [congruence|done].
Qed.

(** C3, amended: on a view of [M] rows of the loaded frame,
    [nlargest(10, 'Average score')] returns [min(M, 10)] rows in descending
    order of the score, rows of equal score in the order of the view; the
    rows returned are rows of the view, each as often as there (a
    rearrangement of a subsequence of the view, not a subsequence in the
    order of the view), and no row left out has a larger score than a row
    returned. *)
Theorem C3_top_10 (raw df : DataFrame) sg se view :
  load_and_clean_data parse_num raw = Ok df →
  filtered_df sg se df = Ok view →
  ∃ j top,
    columns view !! j = Some "Average score" ∧
    nlargest num_leb 10 "Average score" view = Ok top ∧
    columns top = columns view ∧
    List.length (rows top) = min (List.length (rows view)) 10 ∧
    StronglySorted (ge_at num_leb j) (rows top) ∧
    (∀ x, List.filter (tie num_leb j x) (rows top)
            `prefix_of` List.filter (tie num_leb j x) (rows view)) ∧
    rows top ⊆+ rows view ∧
    ∃ rest, rows top ++ rest ≡ₚ rows view ∧
            ∀ a b, a ∈ rows top → b ∈ rest → ge_at num_leb j a b.
Proof.
  intros Hload Hview.
  destruct (view_scores _ _ _ _ _ Hload Hview) as (j & Hj & Hloc & Hobj).
  exists j, {| columns := columns view;
               rows := take 10 (sort_desc num_leb j (rows view)) |}.
  split; [done|]. split.
  { unfold nlargest. by rewrite Hloc, Hobj. }
  split; [done|]. simpl.
  apply (take_sort_desc num_leb num_leb_total num_leb_trans j 10 (rows view)).
Qed.

(** C7: a selection of a value that no row of the loaded frame has gives
    the view without rows, and not an error; on it the ranking is a frame
    without rows, the table of counts is empty and the scatter input is the
    view without rows. *)
Theorem C7_empty_selection (raw df : DataFrame) A B jg je :
  load_and_clean_data parse_num raw = Ok df →
  locate "Major groups" df = Unique jg →
  locate "mean_exposure_level" df = Unique je →
  (A ≠ "All" ∧ ∀ r, r ∈ rows df → cell_at jg r ≠ CStr A)
  ∨ (B ≠ "All" ∧ ∀ r, r ∈ rows df → cell_at je r ≠ CStr B) →
  let empty := {| columns := columns df; rows := [] |} in
  filtered_df A B df = Ok empty ∧
  derive num_leb empty =
    Ok {| top_10_df := empty; exposure_counts := []; scatter_df := empty |}.
Proof.
  intros Hload Hg He Habs empty.
  assert (filtered_df A B df = Ok empty) as Hview.
  { rewrite (filtered_df_both A B df jg je) by done.
    unfold apply_both, empty. do 2 f_equal.
    apply filter_none. intros r Hr. unfold holds.
    assert (∀ v j, v ≠ "All" → cell_at j r ≠ CStr v →
              String.eqb v "All" || eq_str v (cell_at j r) = false) as Hno.
    { intros v j Hv Hc. apply orb_false_intro.
      - by apply String.eqb_neq.
      - destruct (cell_at j r) as [s| |]; simpl; try done.
        apply String.eqb_neq. congruence. }
    destruct Habs as [[HA Hall]|[HB Hall]].
    - rewrite (Hno A jg) by auto. done.
    - rewrite (Hno B je) by auto. apply andb_false_r. }
  split; [done|].
  destruct (view_scores _ _ _ _ _ Hload Hview) as (ja & _ & Hloc & _).
  unfold derive, nlargest, value_counts.
  rewrite Hloc. simpl.
  rewrite (locate_columns df empty "mean_exposure_level") by done.
  rewrite He. done.
Qed.

(** Every request that is sent is the context of lines 149-153. *)
Lemma chat_sent grok uuid4 (df : DataFrame) q hist :
  q ≠ EmptyString →
  sent_of (chat to_string grok uuid4 df q hist) = [context to_string df q].
Proof.
  intros Hq. unfold chat. destruct q as [|c q]; [done|].
  destruct (grok _) as [[|content choices]|e]; try done.
  by destruct (is_Exception e).
Qed.

(** C1: when the call of the answering service raises an error (an
    instance of [Exception]) on a query that is not empty, the block runs
    through; the history has one turn more, the turns it had are unchanged
    and come first, and the new last turn holds the query and the answer
    [Error contacting Grok: ] followed by [str(e)]. *)
Theorem C1_failure_isolated grok uuid4 (df : DataFrame) q hist e :
  q ≠ EmptyString →
  grok (context to_string df q) = Raises e →
  is_Exception e = true →
  let turn := {| id := uuid4; query := q; answer := error_prefix +:+ str_of e |} in
  chat to_string grok uuid4 df q hist
    = Completed (hist ++ [turn]) [context to_string df q] ∧
  List.length (history_of (chat to_string grok uuid4 df q hist)) = List.length hist + 1 ∧
  take (List.length hist) (history_of (chat to_string grok uuid4 df q hist)) = hist ∧
  last (history_of (chat to_string grok uuid4 df q hist)) = Some turn.
Proof.
  intros Hq Hcall Hexc turn.
  assert (chat to_string grok uuid4 df q hist
          = Completed (hist ++ [turn]) [context to_string df q]) as ->.
  { unfold chat. destruct q as [|c q]; [done|]. by rewrite Hcall, Hexc. }
  split; [done|]. simpl. split; [|split].
  - rewrite length_app. simpl. lia.
  - by rewrite take_app_length.
  - by rewrite last_snoc.
Qed.

(** C8, amended: on the empty query the block does nothing: no request is
    sent and the history stays as it is. *)
Theorem C8_empty_query_noop grok uuid4 (df : DataFrame) hist :
  chat to_string grok uuid4 df EmptyString hist = Completed hist [].
Proof. reflexivity. Qed.

(** C9: on a query that is not empty the one request sent is the fixed
    preamble, the text of the first five rows of the loaded frame, the fixed
    label of the question, the query as typed and the fixed end of the
    template; the frame is the one the loader returned, whatever the two
    selections are. *)
Theorem C9_context_of_request (raw : DataFrame) sg se q grok uuid4 hist p :
  run parse_num num_leb to_string raw sg se q grok uuid4 hist = Ok p →
  q ≠ EmptyString →
  load_and_clean_data parse_num raw = Ok (page_df p) ∧
  sent_of (page_chat p) =
    [preamble +:+ to_string (head 5 (page_df p)) +:+ question_label +:+ q
     +:+ context_end] ∧
  columns (head 5 (page_df p)) = columns (page_df p) ∧
  rows (head 5 (page_df p)) = take 5 (rows (page_df p)) ∧
  ∀ sg' se' p',
    run parse_num num_leb to_string raw sg' se' q grok uuid4 hist = Ok p' →
    sent_of (page_chat p') = sent_of (page_chat p).
Proof.
  intros Hrun Hq.
  assert (∀ sg se p,
            run parse_num num_leb to_string raw sg se q grok uuid4 hist = Ok p →
            load_and_clean_data parse_num raw = Ok (page_df p) ∧
            sent_of (page_chat p) = [context to_string (page_df p) q]) as Hgen.
  { clear -Hq. intros sg se p. unfold run.
    intros (df & Hdf & H)%bind_Ok_inv.
    apply bind_Ok_inv in H as (view & Hview & H).
    apply bind_Ok_inv in H as (ch & Hch & H).
    injection H as <-. simpl. split; [done|]. by apply chat_sent. }
  destruct (Hgen _ _ _ Hrun) as [Hload Hsent].
  split; [done|]. split; [done|]. split; [done|]. split; [done|].
  intros sg' se' p' Hrun'. destruct (Hgen _ _ _ Hrun') as [Hload' Hsent'].
  rewrite Hsent, Hsent'. do 2 f_equal. congruence.
Qed.

Lemma clean_str_variant v s :
  SpecText.bare v → SpecText.variant v s → PyStr.clean_str s = v.
Proof.
  intros Hb (w1 & w2 & H1 & H2 & [->| ->]).
  - by apply clean_str_bare.
  - by apply clean_str_quoted.
Qed.

Lemma elem_of_loaded_intro (raw : DataFrame) ja js r0 :
  map PyStr.clean_header (columns raw) !! ja = Some "Average score" →
  map PyStr.clean_header (columns raw) !! js = Some "Standard deviation" →
  r0 ∈ rows raw →
  parses_numeric parse_num raw ja r0 = true →
  parses_numeric parse_num raw js r0 = true →
  normal_row parse_num raw ja js r0 ∈ rows (loaded parse_num raw ja js).
Proof.
  intros Ha Hs Hr Hpa Hps.
  destruct (numeric_positions _ _ _ Ha Hs) as (Hja & Hjs & Hne).
  rewrite length_map in Hja, Hjs.
  unfold loaded. simpl. apply list_elem_of_In, List.filter_In. split.
  - apply List.in_map. by apply list_elem_of_In.
  - rewrite complete_at_normal_row by done. by rewrite Hpa, Hps.
Qed.

(** C5, amended: the cleaning of line 40 trims a string and takes one
    quote off each end (quotes inside stay); so a value without white space
    or quote at its ends is recovered from every form of it with white space
    around it, bare or in one pair of quotes, such as the three forms of
    [Engineer]; in the frame the loader returns, with [ja] and [js] the
    positions of its two numeric labels, every row is a row of the file
    whose strings under the other labels are cleaned that way, and the
    filter by such a value keeps the rows whose field in the file was any
    of these forms. *)
Theorem C5_cells_trimmed_and_dequoted :
  (∀ s, PyStr.clean_str s = SpecText.trim_dequote s) ∧
  PyStr.clean_str ("  " +:+ quoted "Engineer" +:+ "  ") = "Engineer" ∧
  (∀ v s, SpecText.bare v → SpecText.variant v s → PyStr.clean_str s = v) ∧
  (SpecText.bare "Engineer" ∧
   SpecText.variant "Engineer" (quoted "Engineer") ∧
   SpecText.variant "Engineer" " Engineer " ∧
   SpecText.variant "Engineer" "Engineer") ∧
  ∀ raw df,
    load_and_clean_data parse_num raw = Ok df →
    ∃ ja js,
      locate "Average score" df = Unique ja ∧
      locate "Standard deviation" df = Unique js ∧
      (∀ r, r ∈ rows df →
         ∃ r0, r0 ∈ rows raw ∧ r = normal_row parse_num raw ja js r0 ∧
               ∀ k s, k < List.length (columns raw) → k ≠ ja → k ≠ js →
                      cell_at k r0 = CStr s →
                      cell_at k r = CStr (PyStr.clean_str s)) ∧
      (∀ r0 k s,
         r0 ∈ rows raw → k < List.length (columns raw) → k ≠ ja → k ≠ js →
         cell_at k r0 = CStr s →
         cell_at k (normal_row parse_num raw ja js r0) = CStr (PyStr.clean_str s)) ∧
      (∀ jg r0 s v,
         locate "Major groups" df = Unique jg →
         r0 ∈ rows raw →
         parses_numeric parse_num raw ja r0 = true →
         parses_numeric parse_num raw js r0 = true →
         cell_at jg r0 = CStr s →
         SpecText.bare v → SpecText.variant v s → v ≠ "All" →
         ∃ view, filtered_df v "All" df = Ok view ∧
                 normal_row parse_num raw ja js r0 ∈ rows df ∧
                 normal_row parse_num raw ja js r0 ∈ rows view).
Proof.
  split; [apply clean_str_trim_dequote|]. split; [reflexivity|].
  split; [apply clean_str_variant|]. split.
  { split; [by split|]. split; [|split].
    - exists EmptyString, EmptyString. split; [done|]. split; [done|]. by right.
    - exists " ", " ". split; [done|]. split; [done|]. by left.
    - exists EmptyString, EmptyString. split; [done|]. split; [done|]. by left. }
  intros raw df (Hnd & ja & js & Ha & Hs & ->)%load_and_clean_data_inv.
  exists ja, js.
  assert (∀ r0 k s,
            r0 ∈ rows raw → k < List.length (columns raw) → k ≠ ja → k ≠ js →
            cell_at k r0 = CStr s →
            cell_at k (normal_row parse_num raw ja js r0) = CStr (PyStr.clean_str s))
    as Hcells.
  { intros r0 k s Hr Hk Hka Hks Hc.
    rewrite cell_at_normal_row_other, cell_at_clean_row by done.
    unfold trimmed. rewrite (dtype_is_object_intro raw k r0 s) by done.
    by rewrite Hc. }
  split; [by apply locate_NoDup|]. split; [by apply locate_NoDup|].
  split.
  { intros r (r0 & Hr0 & -> & _)%elem_of_loaded. exists r0.
    split; [done|]. split; [done|]. intros k s. by apply Hcells. }
  split; [done|].
  intros jg r0 s v Hloc Hr Hpa Hps Hc Hb Hv Hall.
  pose proof (locate_Unique_lookup _ _ _ Hloc) as Hjg. simpl in Hjg.
  assert (jg < List.length (columns raw)) as Hlt.
  { apply lookup_lt_Some in Hjg. by rewrite length_map in Hjg. }
  assert (jg ≠ ja) as Hga by (intros ->; congruence).
  assert (jg ≠ js) as Hgs by (intros ->; congruence).
  pose proof (elem_of_loaded_intro raw ja js r0 Ha Hs Hr Hpa Hps) as Hin.
  eexists. split; [|split; [exact Hin|]].
  - unfold filtered_df. rewrite (proj2 (String.eqb_neq v "All")) by done.
    rewrite (select_eq_Unique _ _ _ jg) by done. rewrite bind_Ok. reflexivity.
  - simpl. apply list_elem_of_In, List.filter_In. split.
    + by apply list_elem_of_In.
    + rewrite (Hcells r0 jg s) by done.
      rewrite (clean_str_variant v s) by done. simpl. apply String.eqb_refl.
Qed.

End PageFacts.

(** ** The session and the display *)

Section SessionFacts.

Context {num : Type}.
Context (to_string : DataFrame num → string).
Local Abbreviation DataFrame := (DataFrame num).
Local Abbreviation caught := (caught to_string).

(** What a run appends: nothing, or one turn with the query of the run and
    the identifier drawn in it. *)
Lemma chat_appends grok uuid4 (df : DataFrame) q hist :
  history_of (chat to_string grok uuid4 df q hist) = hist
  ∨ ∃ a, q ≠ EmptyString ∧
         history_of (chat to_string grok uuid4 df q hist)
         = hist ++ [{| id := uuid4; query := q; answer := a |}].
Proof.
  unfold chat. destruct q as [|c q]; [by left|].
  destruct (grok _) as [[|content choices]|e]; simpl.
  - right. by eexists.
  - right. by eexists.
  - destruct (is_Exception e); simpl; [right; by eexists | by left].
Qed.

(** X1: whatever the answering service does, a run of the chat block keeps
    the turns the history had, in their order and at the front, adds at most
    one turn, which carries the query and the identifier of the run, and
    sends one request exactly when the query is not empty. *)
Theorem chat_append_only grok uuid4 (df : DataFrame) q hist :
  hist `prefix_of` history_of (chat to_string grok uuid4 df q hist) ∧
  List.length (history_of (chat to_string grok uuid4 df q hist)) ≤ List.length hist + 1 ∧
  (∀ t, t ∈ drop (List.length hist) (history_of (chat to_string grok uuid4 df q hist)) →
        query t = q ∧ id t = uuid4) ∧
  List.length (sent_of (chat to_string grok uuid4 df q hist))
    = (if decide (q = EmptyString) then 0 else 1).
Proof.
  split; [|split; [|split]].
  - destruct (chat_appends grok uuid4 df q hist) as [->|(a & _ & ->)]; [done|].
    by apply prefix_app_r.
  - destruct (chat_appends grok uuid4 df q hist) as [->|(a & _ & ->)]; [lia|].
    rewrite length_app. simpl. lia.
  - intros t. destruct (chat_appends grok uuid4 df q hist) as [->|(a & _ & ->)].
    + rewrite drop_all. by intros ?%elem_of_nil.
    + rewrite drop_app_length. intros ->%list_elem_of_singleton. done.
  - destruct (decide (q = EmptyString)) as [->|Hq]; [done|].
    by rewrite chat_sent.
Qed.

(** X4: an exception leaves the chat block in one case only: the query is
    not empty and the service raises an exception that is no instance of
    [Exception] (a KeyboardInterrupt, a SystemExit).  It leaves after the
    request was sent, and the history is as it was. *)
Theorem chat_propagates grok uuid4 (df : DataFrame) q hist e h sent :
  chat to_string grok uuid4 df q hist = Propagated e h sent ↔
  q ≠ EmptyString ∧
  grok (context to_string df q) = Raises e ∧
  is_Exception e = false ∧
  h = hist ∧ sent = [context to_string df q].
Proof.
  unfold chat. destruct q as [|c q]; [split; [done|by intros [? _]]|].
  destruct (grok _) as [[|content choices]|e'] eqn:E.
  - split; [done|]. by intros (_ & ? & _).
  - split; [done|]. by intros (_ & ? & _).
  - destruct (is_Exception e') eqn:He.
    + split; [done|]. intros (_ & [= ->] & ? & _). congruence.
    + split.
      * intros [= <- <- <-]. done.
      * intros (_ & [= ->] & _ & -> & ->). done.
Qed.

Lemma chat_query grok uuid4 (df : DataFrame) q hist :
  (∀ e, grok (context to_string df q) = Raises e → is_Exception e = true) →
  map query (history_of (chat to_string grok uuid4 df q hist))
  = map query hist ++ (if decide (q = EmptyString) then [] else [q]).
Proof.
  intros Hc. unfold chat. destruct q as [|c q]; simpl.
  - by rewrite app_nil_r.
  - destruct (grok _) as [[|content choices]|e] eqn:E; simpl;
      try (unfold append_turn; by rewrite map_app).
    rewrite (Hc e eq_refl). simpl. unfold append_turn. by rewrite map_app.
Qed.


End SessionFacts.

(** The blocks of the turns when one more turn is appended. *)
Lemma chat_messages_snoc hist t :
  chat_messages (hist ++ [t]) = you_html t :: grok_html t :: chat_messages hist.
Proof. unfold chat_messages. by rewrite rev_app_distr. Qed.

Lemma chat_messages_length hist :
  List.length (chat_messages hist) = 2 * List.length hist.
Proof.
  unfold chat_messages. rewrite <- (length_rev hist).
  generalize (rev hist). intros l.
  induction l as [|c l IH]; simpl; [done|]. rewrite IH. lia.
Qed.

(** X6: the history is displayed most recent turn first: nothing at all for
    an empty history; otherwise the container, then for the turn appended
    last its question and its answer, then the blocks of the earlier turns
    as they were displayed before, two blocks per turn. *)
Theorem display_most_recent_first hist t :
  display_chat [] = [] ∧
  display_chat (hist ++ [t])
  = div_open "chat-container" :: you_html t :: grok_html t
    :: chat_messages hist ++ ["</div>"] ∧
  List.length (display_chat (hist ++ [t])) = 2 * (List.length hist + 1) + 2 ∧
  (hist ≠ [] →
   display_chat hist = div_open "chat-container" :: chat_messages hist ++ ["</div>"]).
Proof.
  split; [done|].
  assert (display_chat (hist ++ [t])
          = div_open "chat-container" :: you_html t :: grok_html t
            :: chat_messages hist ++ ["</div>"]) as Hd.
  { unfold display_chat. rewrite chat_messages_snoc.
    by destruct hist. }
  split; [done|]. split.
  - rewrite Hd. simpl. rewrite length_app, chat_messages_length. simpl. lia.
  - by destruct hist.
Qed.

(** ** What the cleaning of strings takes away *)

Section CleaningFacts.

Import PyStr SpecText.

Lemma append_assoc_s (a b c : string) : (a +:+ b) +:+ c = a +:+ (b +:+ c).
Proof.
  induction a as [|x a IH]; [reflexivity|].
  change (String x ((a +:+ b) +:+ c) = String x (a +:+ (b +:+ c))).
  by rewrite IH.
Qed.

Lemma append_cons_s x (a b : string) : String x a +:+ b = String x (a +:+ b).
Proof. reflexivity. Qed.

Lemma lstrip_split s : ∃ w, s = w +:+ lstrip s ∧ blank w = true.
Proof.
  induction s as [|c r (w & Hr & Hw)]; [by exists EmptyString|].
  simpl. destruct (isspace c) eqn:Hc.
  - exists (String c w). rewrite append_cons_s, <- Hr. simpl. by rewrite Hc, Hw.
  - by exists EmptyString.
Qed.

Lemma rstrip_split s : ∃ w, s = rstrip s +:+ w ∧ blank w = true.
Proof.
  induction s as [|c r (w & Hr & Hw)]; [by exists EmptyString|].
  rewrite rstrip_cons. destruct (rstrip r) as [|b t] eqn:E.
  - change (r = w) in Hr. subst w. destruct (isspace c) eqn:Hc.
    + exists (String c r). split; [reflexivity|]. simpl. by rewrite Hc, Hw.
    + by exists r.
  - exists w. split; [|done]. by rewrite append_cons_s, <- Hr.
Qed.

Lemma strip_split s :
  ∃ w1 w2, s = w1 +:+ strip s +:+ w2 ∧ blank w1 = true ∧ blank w2 = true.
Proof.
  destruct (lstrip_split s) as (w1 & H1 & Hw1).
  destruct (rstrip_split (lstrip s)) as (w2 & H2 & Hw2).
  exists w1, w2. unfold strip. by rewrite <- H2, <- H1.
Qed.

Lemma is_quote_eq c : is_quote c = true → c = quote.
Proof. unfold is_quote. by intros ?%Ascii.eqb_eq. Qed.

Lemma drop_leading_quote_split t :
  ∃ a, t = a +:+ drop_leading_quote t ∧ (a = EmptyString ∨ a = dq).
Proof.
  destruct t as [|c r]; [exists EmptyString; auto|]. simpl.
  destruct (is_quote c) eqn:Hc.
  - apply is_quote_eq in Hc as ->. exists dq. auto.
  - exists EmptyString. auto.
Qed.

Lemma drop_trailing_quote_split t :
  ∃ b, t = drop_trailing_quote t +:+ b ∧ (b = EmptyString ∨ b = dq).
Proof.
  induction t as [|c r (b & Hr & Hb)]; [exists EmptyString; auto|].
  destruct r as [|c' r'].
  - simpl. destruct (is_quote c) eqn:Hc.
    + apply is_quote_eq in Hc as ->. exists dq. auto.
    + exists EmptyString. auto.
  - exists b. split; [|done].
    change (drop_trailing_quote (String c (String c' r')))
      with (String c (drop_trailing_quote (String c' r'))).
    by rewrite append_cons_s, <- Hr.
Qed.

(** X7: the cleaning of a cell only takes away from the two ends: the cell
    of the file is white space, at most one double quote, the cleaned
    string, at most one double quote and white space; what lies between,
    quotes included, is kept as it is. *)
Theorem clean_str_takes_from_the_ends s :
  ∃ w1 a b w2,
    s = w1 +:+ a +:+ clean_str s +:+ b +:+ w2 ∧
    blank w1 = true ∧ blank w2 = true ∧
    (a = EmptyString ∨ a = dq) ∧ (b = EmptyString ∨ b = dq).
Proof.
  destruct (strip_split s) as (w1 & w2 & Hs & H1 & H2).
  destruct (drop_leading_quote_split (strip s)) as (a & Ha & Ha').
  destruct (drop_trailing_quote_split (drop_leading_quote (strip s)))
    as (b & Hb & Hb').
  exists w1, a, b, w2. rewrite clean_str_trim_dequote. unfold trim_dequote.
  split; [|done].
  rewrite <- (append_assoc_s _ b w2), <- Hb, <- (append_assoc_s a), <- Ha.
  exact Hs.
Qed.

Lemma has_quote_app a b : has_quote (a +:+ b) = has_quote a || has_quote b.
Proof.
  induction a as [|c a IH]; [done|].
  rewrite append_cons_s. simpl. by rewrite IH, orb_assoc.
Qed.

Lemma remove_quotes_clean s : has_quote (remove_quotes s) = false.
Proof.
  induction s as [|c r IH]; simpl; [done|].
  destruct (is_quote c) eqn:Hc; simpl; [done|]. by rewrite Hc.
Qed.

Lemma remove_quotes_id s : has_quote s = false → remove_quotes s = s.
Proof.
  induction s as [|c r IH]; simpl; [done|].
  intros [Hc Hr]%orb_false_elim. rewrite Hc. by rewrite IH.
Qed.

Lemma remove_quotes_length s :
  String.length (remove_quotes s) ≤ String.length s.
Proof.
  induction s as [|c r IH]; simpl; [done|].
  destruct (is_quote c); simpl; lia.
Qed.

Lemma length_append_s a b :
  String.length (a +:+ b) = String.length a + String.length b.
Proof.
  induction a as [|c a IH]; [done|]. rewrite append_cons_s. simpl. by rewrite IH.
Qed.

(** X8: a cleaned column label holds no double quote at all, wherever the
    quotes stood in the label of the file; it is never longer than that
    label, and a label without quotes is only stripped of the white space
    around it. *)
Theorem clean_header_no_quote col :
  has_quote (clean_header col) = false ∧
  String.length (clean_header col) ≤ String.length col ∧
  (has_quote col = false → clean_header col = strip col).
Proof.
  unfold clean_header. split; [apply remove_quotes_clean|].
  destruct (strip_split col) as (w1 & w2 & Hs & _). split.
  - pose proof (remove_quotes_length (strip col)) as Hl.
    rewrite Hs at 2. rewrite !length_append_s. lia.
  - intros Hq. apply remove_quotes_id.
    rewrite Hs, !has_quote_app in Hq.
    apply orb_false_elim in Hq as [_ Hq]. by apply orb_false_elim in Hq as [Hq _].
Qed.

End CleaningFacts.

(** ** When the loader returns, and how it fails *)

Section LoaderOutcomes.

Context {num : Type}.
Context (parse_num : string → option num).
Local Abbreviation cell := (cell num).
Local Abbreviation DataFrame := (DataFrame num).

Lemma locate_Absent (df : DataFrame) col :
  col ∉ columns df → locate col df = Absent.
Proof.
  intros Hin. unfold locate.
  pose proof (positions_length col (columns df) 0) as Hlen.
  rewrite (proj1 (List.count_occ_not_In string_dec _ col)) in Hlen.
  - by destruct (positions col (columns df) 0).
  - by rewrite <- list_elem_of_In.
Qed.

Lemma locate_elem_of (df : DataFrame) col :
  col ∈ columns df → locate col df ≠ Absent.
Proof.
  intros Hin. unfold locate.
  pose proof (positions_length col (columns df) 0) as Hlen.
  assert (count_occ string_dec (columns df) col > 0) as Hpos.
  { apply List.count_occ_In. by apply list_elem_of_In. }
  destruct (positions col (columns df) 0) as [|j [|k l]]; try done.
  simpl in Hlen. lia.
Qed.

(** The loop of lines 38-40 over labels of the frame ends in a frame or in
    the AttributeError of a doubled label, never in a KeyError. *)
Lemma clean_values_outcome cols : ∀ d : DataFrame,
  (∀ col, col ∈ cols → col ∈ columns d) →
  (∃ d', clean_values cols d = Ok d')
  ∨ (∃ what, clean_values cols d = Raise (AttributeError what)).
Proof.
  induction cols as [|col rest IH]; intros d Hin; simpl; [left; by eexists|].
  destruct (locate col d) as [|j|] eqn:Hl.
  - exfalso. apply (locate_elem_of d col); [|done].
    apply Hin, elem_of_cons. by left.
  - apply IH. intros c Hc. rewrite clean_step_columns.
    apply Hin, elem_of_cons. by right.
  - right. by eexists.
Qed.

Lemma load_duplicates (raw : DataFrame) :
  ¬ NoDup (map PyStr.clean_header (columns raw)) →
  ∃ what, load_and_clean_data parse_num raw = Raise (AttributeError what).
Proof.
  intros Hdup. unfold load_and_clean_data.
  destruct (clean_values_outcome (columns (clean_columns raw)) (clean_columns raw))
    as [[d Hd]|[what Hw]]; [done| |].
  - exfalso. apply Hdup.
    pose proof (clean_values_Ok _ _ _ Hd) as Hcount. simpl in Hcount.
    apply NoDup_ListNoDup, (List.NoDup_count_occ string_dec). intros col.
    destruct (decide (col ∈ map PyStr.clean_header (columns raw))) as [Hin|Hin].
    + rewrite Hcount; done.
    + rewrite (proj1 (List.count_occ_not_In string_dec _ col)); [lia|].
      by rewrite <- list_elem_of_In.
  - exists what. by rewrite Hw.
Qed.

Lemma load_missing_score (raw : DataFrame) :
  NoDup (map PyStr.clean_header (columns raw)) →
  "Average score" ∉ map PyStr.clean_header (columns raw) →
  load_and_clean_data parse_num raw = Raise (KeyError "Average score").
Proof.
  intros Hnd Hin. unfold load_and_clean_data.
  destruct (clean_values_rows raw Hnd) as (d & -> & Hc & _).
  rewrite bind_Ok. unfold to_numeric_column.
  rewrite locate_Absent; [done|]. by rewrite Hc.
Qed.

Lemma load_missing_deviation (raw : DataFrame) :
  NoDup (map PyStr.clean_header (columns raw)) →
  "Average score" ∈ map PyStr.clean_header (columns raw) →
  "Standard deviation" ∉ map PyStr.clean_header (columns raw) →
  load_and_clean_data parse_num raw = Raise (KeyError "Standard deviation").
Proof.
  intros Hnd [ja Ha]%list_elem_of_lookup Hin. unfold load_and_clean_data.
  destruct (clean_values_rows raw Hnd) as (d & -> & Hc & _).
  rewrite bind_Ok.
  rewrite (to_numeric_column_Unique _ _ d ja).
  2:{ apply locate_NoDup; by rewrite Hc. }
  rewrite bind_Ok. unfold to_numeric_column.
  rewrite locate_Absent; [done|]. simpl. by rewrite Hc.
Qed.

(** X9: a frame the loader returns has pairwise distinct labels, among
    them [Average score] and [Standard deviation]; its labels are the
    cleaned labels of the file in the order of the file, and it has no more
    rows than the file. *)
Theorem loaded_frame_labels (raw df : DataFrame) :
  load_and_clean_data parse_num raw = Ok df →
  columns df = map PyStr.clean_header (columns raw) ∧
  NoDup (columns df) ∧
  "Average score" ∈ columns df ∧
  "Standard deviation" ∈ columns df ∧
  List.length (rows df) ≤ List.length (rows raw).
Proof.
  intros (Hnd & ja & js & Ha & Hs & ->)%load_and_clean_data_inv.
  split; [done|]. split; [done|].
  split; [by eapply list_elem_of_lookup_2|].
  split; [by eapply list_elem_of_lookup_2|].
  unfold loaded. simpl.
  etrans; [apply List.filter_length_le|]. by rewrite length_map.
Qed.


(** X11: in every row of the frame the loader returns, the cell under
    [Average score] and the cell under [Standard deviation] are numbers:
    no string and no missing value is left there, so the two columns are
    numeric for all that follows. *)
Theorem loaded_scores_are_numbers (raw df : DataFrame) :
  load_and_clean_data parse_num raw = Ok df →
  ∃ ja js,
    locate "Average score" df = Unique ja ∧
    locate "Standard deviation" df = Unique js ∧
    (∀ r, r ∈ rows df → ∃ x y, cell_at ja r = CNum x ∧ cell_at js r = CNum y) ∧
    dtype_is_object ja df = false ∧ dtype_is_object js df = false.
Proof.
  intros (Hnd & ja & js & Ha & Hs & ->)%load_and_clean_data_inv.
  destruct (numeric_positions _ _ _ Ha Hs) as (Hja & Hjs & Hne).
  rewrite length_map in Hja, Hjs.
  exists ja, js.
  split; [by apply locate_NoDup|]. split; [by apply locate_NoDup|].
  split; [|split; apply loaded_not_object; auto].
  intros r Hr.
  destruct (loaded_cell parse_num raw ja js r ja Ha Hs Hr Hja)
    as [[_ [x Hx]]|(? & _)]; [|done].
  destruct (loaded_cell parse_num raw ja js r js Ha Hs Hr Hjs)
    as [[_ [y Hy]]|(_ & ? & _)]; [|done].
  by exists x, y.
Qed.

End LoaderOutcomes.

(** ** Views and rankings *)

Section ViewFacts.

Context {num : Type}.
Context (parse_num : string → option num).
Context (num_leb : num → num → bool).

Hypothesis num_leb_total : ∀ x y, num_leb x y = true ∨ num_leb y x = true.
Hypothesis num_leb_trans :
  ∀ x y z, num_leb x y = true → num_leb y z = true → num_leb x z = true.

Local Abbreviation cell := (cell num).
Local Abbreviation DataFrame := (DataFrame num).

Lemma filter_all {A} (f : A → bool) (l : list A) :
  (∀ x, x ∈ l → f x = true) → List.filter f l = l.
Proof.
  intros H. apply List.forallb_filter_id, List.forallb_forall.
  intros x Hx. apply H. by apply list_elem_of_In.
Qed.

Lemma select_eq_Ok col v (df view : DataFrame) :
  select_eq col v df = Ok view →
  ∃ j, locate col df = Unique j ∧
       view = {| columns := columns df;
                 rows := List.filter (λ r, eq_str v (cell_at j r)) (rows df) |}.
Proof.
  unfold select_eq. destruct (locate col df) as [|j|]; try done.
  intros [= <-]. by exists j.
Qed.

(** A frame whose rows all carry the value is its own selection. *)
Lemma select_eq_fixed col v (d : DataFrame) j :
  locate col d = Unique j →
  (∀ r, r ∈ rows d → eq_str v (cell_at j r) = true) →
  select_eq col v d = Ok d.
Proof.
  intros Hl Hall. rewrite (select_eq_Unique _ _ _ j) by done.
  rewrite filter_all by done. by destruct d.
Qed.

Lemma select_eq_again col v (df view : DataFrame) :
  select_eq col v df = Ok view → select_eq col v view = Ok view.
Proof.
  intros (j & Hl & ->)%select_eq_Ok. apply (select_eq_fixed _ _ _ j); [done|].
  simpl. intros r Hr. by apply list_elem_of_In, List.filter_In in Hr as [_ Hr].
Qed.

(** X12: the filter only takes rows away: whatever the two selections, the
    view has the labels of the frame and its rows are a subsequence of the
    rows of the frame, in the order of the frame; with [All] in both boxes
    the view is the frame. *)
Theorem view_is_subsequence sg se (df view : DataFrame) :
  filtered_df sg se df = Ok view →
  columns view = columns df ∧
  rows view `sublist_of` rows df ∧
  List.length (rows view) ≤ List.length (rows df) ∧
  (sg = "All" → se = "All" → view = df).
Proof.
  intros H. destruct (filtered_df_inv _ _ _ _ H) as [Hc Hr].
  split; [done|]. split; [done|]. split; [by apply sublist_length|].
  intros -> ->. by injection H.
Qed.

(** X13: filtering a view again by the selections that produced it changes
    nothing. *)
Theorem filter_twice sg se (df view : DataFrame) :
  filtered_df sg se df = Ok view → filtered_df sg se view = Ok view.
Proof.
  unfold filtered_df. intros (v1 & H1 & H2)%bind_Ok_inv.
  destruct (String.eqb sg "All") eqn:Eg, (String.eqb se "All") eqn:Ee.
  - injection H1 as <-. by injection H2 as <-.
  - injection H1 as <-. rewrite bind_Ok. by eapply select_eq_again.
  - injection H2 as <-. by rewrite (select_eq_again _ _ _ _ H1).
  - assert (select_eq "Major groups" sg view = Ok view) as ->.
    { apply select_eq_Ok in H1 as (jg & Hg & ->).
      apply select_eq_Ok in H2 as (je & He & ->).
      apply (select_eq_fixed _ _ _ jg); [done|]. simpl.
      intros r Hr. apply list_elem_of_In, List.filter_In in Hr as [Hr _].
      by apply List.filter_In in Hr as [_ Hr]. }
    rewrite bind_Ok. by eapply select_eq_again.
Qed.

(** X14: with both columns in the frame the order of the two filters does
    not matter: first the exposure level and then the major group gives the
    view that lines 70-74 give. *)
Theorem filters_commute A B (df : DataFrame) jg je :
  locate "Major groups" df = Unique jg →
  locate "mean_exposure_level" df = Unique je →
  (filtered_df "All" B df ≫= filtered_df A "All") = filtered_df A B df.
Proof.
  intros Hg He.
  rewrite (filtered_df_both "All" B df jg je), (filtered_df_both A B df jg je) by done.
  rewrite bind_Ok.
  rewrite (filtered_df_both A "All" _ jg je) by done.
  unfold apply_both. simpl. rewrite filter_filter_andb. do 2 f_equal.
  apply List.filter_ext. intros r. unfold holds. simpl.
  rewrite andb_true_r. apply andb_comm.
Qed.

(** A list in descending order is what sorting it gives. *)
Lemma sort_desc_sorted_id j (l : list (nat * list cell)) :
  StronglySorted (ge_at num_leb j) l → sort_desc num_leb j l = l.
Proof.
  induction 1 as [|r l Hl IH Hr]; [done|]. simpl. rewrite IH.
  destruct l as [|r' l']; [done|]. simpl.
  apply Forall_cons in Hr as [Hr _]. unfold ge_at in Hr. by rewrite Hr.
Qed.

(** X15: a view of at most ten rows is ranked whole: the ranking holds
    every row of the view, each as often as the view. *)
Theorem top_10_keeps_small_views (raw df : DataFrame) sg se view :
  load_and_clean_data parse_num raw = Ok df →
  filtered_df sg se df = Ok view →
  List.length (rows view) ≤ 10 →
  ∃ top, nlargest num_leb 10 "Average score" view = Ok top ∧
         rows top ≡ₚ rows view.
Proof.
  intros Hload Hview Hlen.
  destruct (view_scores _ _ _ _ _ _ Hload Hview) as (j & _ & Hloc & Hobj).
  eexists. split.
  { unfold nlargest. by rewrite Hloc, Hobj. }
  simpl. rewrite take_ge.
  - apply sort_desc_perm.
  - by rewrite (Permutation_length (sort_desc_perm num_leb j (rows view))).
Qed.

(** X16: ranking the ranking gives the ranking again. *)
Theorem top_10_of_top_10 (raw df : DataFrame) sg se view top :
  load_and_clean_data parse_num raw = Ok df →
  filtered_df sg se df = Ok view →
  nlargest num_leb 10 "Average score" view = Ok top →
  nlargest num_leb 10 "Average score" top = Ok top.
Proof.
  intros Hload Hview Htop.
  destruct (view_scores _ _ _ _ _ _ Hload Hview) as (j & _ & Hloc & Hobj).
  unfold nlargest in Htop. rewrite Hloc, Hobj in Htop. injection Htop as <-.
  destruct (take_sort_desc num_leb num_leb_total num_leb_trans j 10 (rows view))
    as (Hlen & Hsorted & _ & Hsub & _).
  set (top := take 10 (sort_desc num_leb j (rows view))) in *.
  unfold nlargest. rewrite (locate_columns view _ "Average score") by done.
  rewrite Hloc.
  assert (dtype_is_object j {| columns := columns view; rows := top |} = false) as ->.
  { destruct (dtype_is_object j {| columns := columns view; rows := top |}) eqn:E;
      [|done].
    apply dtype_is_object_elim in E as (r & s & Hr & Hc). simpl in Hr.
    apply (elem_of_submseteq _ _ _ Hr) in Hsub.
    by rewrite (dtype_is_object_intro view j r s) in Hobj. }
  simpl. rewrite sort_desc_sorted_id by done.
  rewrite take_ge; [done|]. rewrite Hlen. lia.
Qed.

End ViewFacts.

(** ** The table of counts *)

Section CountFacts.

Context {num : Type}.
Context (num_leb : num → num → bool).

Local Abbreviation cell := (cell num).
Local Abbreviation DataFrame := (DataFrame num).
Local Abbreviation count_one := (count_one num_leb).
Local Abbreviation same_value := (same_value num_leb).
Local Abbreviation value_counts_of := (value_counts_of num_leb).

Lemma eq_str_true v (l : cell) : eq_str v l = true ↔ l = CStr v.
Proof.
  destruct l as [s| |]; simpl; try (split; done).
  rewrite String.eqb_eq. split; congruence.
Qed.

Lemma same_value_str v (c : cell) : same_value (CStr v) c = eq_str v c.
Proof.
  destruct c as [s| |]; simpl; try done. apply String.eqb_sym.
Qed.

Lemma same_value_label (l c : cell) v :
  same_value l c = true → eq_str v l = eq_str v c.
Proof.
  destruct l as [s|x|], c as [s'|x'|]; simpl; try done.
  by intros ->%String.eqb_eq.
Qed.

(** Counting one more cell raises the count of its own label by one and
    leaves the other counts. *)
Lemma count_for_count_one v c t :
  count_for v (count_one c t) = count_for v t + (if eq_str v c then 1 else 0).
Proof.
  induction t as [|[l k] t IH]; simpl.
  - destruct (eq_str v c); lia.
  - destruct (same_value l c) eqn:E; simpl.
    + rewrite <- (same_value_label l c v E). destruct (eq_str v l); lia.
    + destruct (eq_str v l) eqn:El; [|exact IH].
      apply eq_str_true in El as ->. rewrite same_value_str in E.
      rewrite E. lia.
Qed.

Lemma str_labels_count_one w c t :
  w ∈ str_labels (count_one c t) → w ∈ str_labels t ∨ c = CStr w.
Proof.
  induction t as [|[l k] t IH]; simpl.
  - destruct c as [s| |]; simpl; try by intros ?%elem_of_nil.
    intros ->%list_elem_of_singleton. by right.
  - destruct (same_value l c) eqn:E.
    + destruct l; simpl; auto.
    + destruct l as [s| |]; simpl; try exact IH.
      intros [->|H]%elem_of_cons; [left; apply elem_of_cons; by left|].
      destruct (IH H) as [?|?]; [left; apply elem_of_cons; by right|by right].
Qed.

Lemma str_labels_NoDup c t :
  NoDup (str_labels t) → NoDup (str_labels (count_one c t)).
Proof.
  induction t as [|[l k] t IH]; simpl.
  - intros _. destruct c; simpl; repeat constructor. by intros ?%elem_of_nil.
  - destruct (same_value l c) eqn:E.
    + by destruct l.
    + destruct l as [s| |]; simpl; try exact IH.
      intros [Hs Hnd]%NoDup_cons. apply NoDup_cons. split; [|auto].
      intros [H|H]%str_labels_count_one; [done|].
      subst c. rewrite same_value_str in E. simpl in E.
      by rewrite String.eqb_refl in E.
Qed.

Lemma positive_count_one c (t : list (cell * nat)) :
  Forall (λ e, 0 < e.2) t → Forall (λ e, 0 < e.2) (count_one c t).
Proof.
  induction t as [|[l k] t IH]; simpl.
  - intros _. repeat constructor.
  - intros [Hk Ht]%Forall_cons. destruct (same_value l c).
    + constructor; [simpl; lia|done].
    + constructor; auto.
Qed.

Lemma total_count_one c (t : list (cell * nat)) :
  sum_list (map snd (count_one c t)) = S (sum_list (map snd t)).
Proof.
  induction t as [|[l k] t IH]; simpl; [done|].
  destruct (same_value l c); simpl; [done|]. rewrite IH. lia.
Qed.

(** With one entry per label the count of an entry is the count listed. *)
Lemma count_for_elem_of v k (t : list (cell * nat)) :
  NoDup (str_labels t) → (CStr v, k) ∈ t → count_for v t = k.
Proof.
  induction t as [|[l k'] t IH]; simpl; [by intros _ ?%elem_of_nil|].
  intros Hnd [[= <- <-]|Hin]%elem_of_cons.
  - simpl. by rewrite String.eqb_refl.
  - destruct (eq_str v l) eqn:El.
    + apply eq_str_true in El as ->. apply NoDup_cons in Hnd as [Hv _].
      exfalso. apply Hv. clear -Hin.
      induction t as [|[l' k''] t IH]; [by apply elem_of_nil in Hin|].
      apply elem_of_cons in Hin as [[= <- <-]|Hin]; simpl.
      * apply elem_of_cons. by left.
      * destruct l'; auto. apply elem_of_cons. right. auto.
    + apply IH; [|done]. destruct l; try done. by apply NoDup_cons in Hnd as [_ ?].
Qed.

Lemma count_for_positive v (t : list (cell * nat)) :
  0 < count_for v t → (CStr v, count_for v t) ∈ t.
Proof.
  induction t as [|[l k] t IH]; simpl; [lia|].
  destruct (eq_str v l) eqn:El.
  - apply eq_str_true in El as ->. intros _. apply elem_of_cons. by left.
  - intros H. apply elem_of_cons. right. auto.
Qed.

(** The tally of a column, before it is put in order. *)
Lemma tally_invariant (s : list cell) : ∀ t : list (cell * nat),
  let t' := foldl (λ t c, count_one c t) t s in
  (∀ v, count_for v t' = count_for v t + occurrences v s) ∧
  (NoDup (str_labels t) → NoDup (str_labels t')) ∧
  (Forall (λ e, 0 < e.2) t → Forall (λ e, 0 < e.2) t') ∧
  sum_list (map snd t') = sum_list (map snd t) + List.length s.
Proof.
  induction s as [|c s IH]; intros t; simpl.
  - split; [intros v; unfold occurrences; simpl; lia|]. split; [done|].
    split; [done|lia].
  - destruct (IH (count_one c t)) as (Hc & Hn & Hp & Ht).
    split; [|split; [|split]].
    + intros v. rewrite Hc, count_for_count_one. unfold occurrences. simpl.
      destruct (eq_str v c); simpl; lia.
    + intros H. by apply Hn, str_labels_NoDup.
    + intros H. by apply Hp, positive_count_one.
    + rewrite Ht, total_count_one. lia.
Qed.

Lemma insert_count_perm (e : cell * nat) t : insert_count e t ≡ₚ e :: t.
Proof.
  induction t as [|e' t IH]; simpl; [done|].
  destruct (e'.2 <=? e.2); [done|]. rewrite IH. apply Permutation_swap.
Qed.

Lemma sort_counts_perm (t : list (cell * nat)) : foldr insert_count [] t ≡ₚ t.
Proof.
  induction t as [|e t IH]; simpl; [done|]. by rewrite insert_count_perm, IH.
Qed.

Lemma insert_count_sorted (e : cell * nat) t :
  StronglySorted (λ a b, b.2 ≤ a.2) t →
  StronglySorted (λ a b, b.2 ≤ a.2) (insert_count e t).
Proof.
  induction t as [|e' t IH]; intros Ht; simpl.
  - repeat constructor.
  - apply StronglySorted_inv in Ht as [Ht He'].
    destruct (e'.2 <=? e.2) eqn:E.
    + apply Nat.leb_le in E. constructor; [by constructor|].
      constructor; [done|]. eapply Forall_impl; [exact He'|]. simpl. lia.
    + apply Nat.leb_gt in E. constructor; [auto|].
      rewrite insert_count_perm. constructor; [lia|done].
Qed.

Lemma sort_counts_sorted (t : list (cell * nat)) :
  StronglySorted (λ a b, b.2 ≤ a.2) (foldr insert_count [] t).
Proof.
  induction t as [|e t IH]; simpl; [constructor|]. by apply insert_count_sorted.
Qed.

Lemma occurrences_notna v (s : list cell) :
  occurrences v (List.filter notna s) = occurrences v s.
Proof.
  unfold occurrences. induction s as [|c s IH]; simpl; [done|].
  destruct c as [x|x|]; simpl; try done; destruct (String.eqb x v); simpl; lia.
Qed.

Lemma str_labels_perm (t t' : list (cell * nat)) :
  t ≡ₚ t' → str_labels t ≡ₚ str_labels t'.
Proof.
  induction 1 as [|[l k] t t' Hp IH|[l k] [l' k'] t|t t' t'' H1 IH1 H2 IH2].
  - done.
  - destruct l; simpl; by rewrite ?IH.
  - destruct l, l'; simpl; try done. apply Permutation_swap.
  - by etrans.
Qed.

(** The entries of the table of counts of a column. *)
Lemma value_counts_of_entries (s : list cell) v k :
  (CStr v, k) ∈ value_counts_of s ↔ k = occurrences v s ∧ 0 < k.
Proof.
  unfold value_counts_of.
  destruct (tally_invariant (List.filter notna s) []) as (Hc & Hn & Hp & _).
  simpl in Hc. rewrite sort_counts_perm.
  set (t := foldl (λ t c, count_one c t) [] (List.filter notna s)) in *.
  specialize (Hn (NoDup_nil_2)). specialize (Hp (Forall_nil_2 _)).
  split.
  - intros Hin. split.
    + rewrite <- (occurrences_notna v s), <- Hc. symmetry.
      by apply count_for_elem_of.
    + rewrite Forall_forall in Hp. apply (Hp _ Hin).
  - intros [-> Hk]. rewrite <- (occurrences_notna v s), <- Hc.
    apply count_for_positive. rewrite Hc, occurrences_notna. done.
Qed.

(** X17: the table of counts lists a string exactly when a row of the view
    has it under the label, and lists beside it the number of these rows,
    which is the number of rows the filter by that string selects. *)
Theorem value_counts_entries col (view : DataFrame) j :
  locate col view = Unique j →
  ∃ t, value_counts num_leb col view = Ok t ∧
       ∀ v k, (CStr v, k) ∈ t ↔
              k = List.length (List.filter (λ r, eq_str v (cell_at j r)) (rows view))
              ∧ 0 < k.
Proof.
  intros Hl. exists (value_counts_of (series j view)). split.
  { unfold value_counts. by rewrite Hl. }
  intros v k. rewrite value_counts_of_entries.
  unfold occurrences, series.
  by rewrite List.filter_map_swap, length_map.
Qed.

(** X18: the table of counts is in descending order of the counts, no
    string is listed twice, and the counts add up to the number of rows of
    the view whose cell under the label is not missing. *)
Theorem value_counts_ordered_and_total col (view : DataFrame) j :
  locate col view = Unique j →
  ∃ t, value_counts num_leb col view = Ok t ∧
       StronglySorted (λ a b, b.2 ≤ a.2) t ∧
       NoDup (str_labels t) ∧
       sum_list (map snd t)
       = List.length (List.filter (λ r, notna (cell_at j r)) (rows view)).
Proof.
  intros Hl. exists (value_counts_of (series j view)). split.
  { unfold value_counts. by rewrite Hl. }
  unfold value_counts_of.
  destruct (tally_invariant (List.filter notna (series j view)) [])
    as (_ & Hn & _ & Ht).
  split; [apply sort_counts_sorted|]. split.
  - rewrite (str_labels_perm _ _ (sort_counts_perm _)). apply Hn. constructor.
  - rewrite (sort_counts_perm _). rewrite Ht. simpl.
    unfold series. by rewrite List.filter_map_swap, length_map.
Qed.

End CountFacts.

(** ** The select boxes *)

Section SidebarFacts.

Context {num : Type}.
Context (parse_num : string → option num).
Context (num_leb : num → num → bool).
Context (sorted_floats : list (cell num) → list (cell num)).

Local Abbreviation cell := (cell num).
Local Abbreviation DataFrame := (DataFrame num).
Local Abbreviation same_key := (same_key num_leb).
Local Abbreviation unique_from := (unique_from num_leb).
Local Abbreviation unique := (unique num_leb).
Local Abbreviation py_sorted := (py_sorted sorted_floats).
Local Abbreviation options := (options num_leb sorted_floats).
Local Abbreviation sidebar := (sidebar num_leb sorted_floats).

Lemma seen_str v (seen : list cell) :
  existsb (same_key (CStr v)) seen = true ↔ CStr v ∈ seen.
Proof.
  rewrite List.existsb_exists. split.
  - intros (b & Hb & Hk). destruct b as [s| |]; simpl in Hk; try done.
    apply String.eqb_eq in Hk as ->. by apply list_elem_of_In.
  - intros Hin. exists (CStr v). split; [by apply list_elem_of_In|].
    simpl. apply String.eqb_refl.
Qed.

Lemma unique_from_sub (s : list cell) : ∀ seen x,
  x ∈ unique_from seen s → x ∈ s.
Proof.
  induction s as [|c s IH]; intros seen x; simpl; [done|].
  destruct (existsb (same_key c) seen).
  - intros H%IH. apply elem_of_cons. by right.
  - intros [->|H%IH]%elem_of_cons; apply elem_of_cons; auto.
Qed.

Lemma unique_from_str (s : list cell) v : ∀ seen,
  CStr v ∈ s → CStr v ∈ seen ∨ CStr v ∈ unique_from seen s.
Proof.
  induction s as [|c s IH]; intros seen; simpl; [by intros ?%elem_of_nil|].
  intros [<-|Hin]%elem_of_cons.
  - destruct (existsb (same_key (CStr v)) seen) eqn:E.
    + left. by apply seen_str.
    + right. apply elem_of_cons. by left.
  - destruct (existsb (same_key c) seen) eqn:E; [by apply IH|].
    destruct (IH (c :: seen) Hin) as [[->|H]%elem_of_cons|H].
    + right. apply elem_of_cons. by left.
    + by left.
    + right. apply elem_of_cons. by right.
Qed.

Lemma unique_from_fresh (s : list cell) v : ∀ seen,
  CStr v ∈ unique_from seen s → CStr v ∉ seen.
Proof.
  induction s as [|c s IH]; intros seen; simpl; [by intros ?%elem_of_nil|].
  destruct (existsb (same_key c) seen) eqn:E; [apply IH|].
  intros [<-|H]%elem_of_cons.
  - intros Hin%seen_str. congruence.
  - intros Hin. apply (IH _ H). apply elem_of_cons. by right.
Qed.

Lemma elem_of_strings_of v (l : list cell) : v ∈ strings_of l ↔ CStr v ∈ l.
Proof.
  induction l as [|c l IH]; simpl.
  - split; by intros ?%elem_of_nil.
  - destruct c as [w| |]; rewrite ?elem_of_cons, IH.
    + split; (intros [H|H]; [left; congruence|by right]).
    + split; [by right|]. by intros [?|?].
    + split; [by right|]. by intros [?|?].
Qed.

Lemma unique_from_NoDup (s : list cell) : ∀ seen,
  NoDup (strings_of (unique_from seen s)).
Proof.
  induction s as [|c s IH]; intros seen; simpl; [constructor|].
  destruct (existsb (same_key c) seen) eqn:E; [apply IH|].
  destruct c as [v| |]; simpl; try apply IH.
  constructor; [|apply IH].
  intros Hin%elem_of_strings_of%unique_from_fresh. apply Hin.
  apply elem_of_cons. by left.
Qed.

Lemma unique_from_not_str (s : list cell) : ∀ seen,
  (∀ b, b ∈ seen → is_str b = true) →
  (∃ c, c ∈ s ∧ is_str c = false) →
  ∃ c, c ∈ unique_from seen s ∧ is_str c = false.
Proof.
  induction s as [|c0 s IH]; intros seen Hseen (c & Hin & Hc); simpl.
  { by apply elem_of_nil in Hin. }
  destruct (is_str c0) eqn:E0.
  - assert (c ∈ s) as Hs.
    { apply elem_of_cons in Hin as [->|?]; [congruence|done]. }
    destruct (existsb (same_key c0) seen).
    + apply IH; eauto.
    + destruct (IH (c0 :: seen)) as (c' & Hc' & Hn); eauto.
      * intros b [->|?]%elem_of_cons; auto.
      * exists c'. split; [|done]. apply elem_of_cons. by right.
  - assert (existsb (same_key c0) seen = false) as ->.
    { apply not_true_is_false. intros (b & Hb & Hk)%List.existsb_exists.
      apply list_elem_of_In, Hseen in Hb.
      destruct b; try done. by destruct c0. }
    exists c0. split; [|done]. apply elem_of_cons. by left.
Qed.

Lemma insert_str_perm v l : insert_str v l ≡ₚ v :: l.
Proof.
  induction l as [|w l IH]; simpl; [done|].
  destruct (String.leb v w); [done|]. rewrite IH. apply Permutation_swap.
Qed.

Lemma sort_str_perm l : sort_str l ≡ₚ l.
Proof.
  induction l as [|v l IH]; simpl; [done|]. by rewrite insert_str_perm, IH.
Qed.

Lemma insert_str_sorted v l :
  Sorted (λ a b, String.leb a b = true) l →
  Sorted (λ a b, String.leb a b = true) (insert_str v l).
Proof.
  induction l as [|w l IH]; intros Hl; simpl.
  - repeat constructor.
  - destruct (String.leb v w) eqn:E.
    + constructor; [done|]. by constructor.
    + apply Sorted_inv in Hl as [Hl Hw]. constructor; [auto|].
      assert (String.leb w v = true) as Hwv.
      { destruct (String.leb_total v w); congruence. }
      destruct l as [|u l']; simpl.
      * by constructor.
      * destruct (String.leb v u); constructor; [done|].
        by apply HdRel_inv in Hw.
Qed.

Lemma sort_str_sorted l : Sorted (λ a b, String.leb a b = true) (sort_str l).
Proof.
  induction l as [|v l IH]; simpl; [constructor|]. by apply insert_str_sorted.
Qed.

(** The entries of a select box over a column of strings. *)
Lemma options_strings col (df : DataFrame) j :
  locate col df = Unique j →
  (∀ r, r ∈ rows df → ∃ v, cell_at j r = CStr v) →
  let opts := sort_str (strings_of (unique (series j df))) in
  options col df = Ok (CStr "All" :: map CStr opts) ∧
  NoDup opts ∧
  ∀ v, v ∈ opts ↔ ∃ r, r ∈ rows df ∧ cell_at j r = CStr v.
Proof.
  intros Hl Hall opts.
  assert (∀ c, c ∈ series j df → is_str c = true) as Hstr.
  { intros c (r & -> & Hr)%list_elem_of_fmap.
    destruct (Hall r Hr) as [v ->]. done. }
  split; [|split].
  - unfold options. rewrite Hl. unfold py_sorted.
    assert (forallb is_str (unique (series j df)) = true) as ->; [|done].
    apply List.forallb_forall. intros c Hc%list_elem_of_In.
    by apply Hstr, (unique_from_sub _ []).
  - unfold opts. rewrite sort_str_perm. apply unique_from_NoDup.
  - intros v. unfold opts. rewrite sort_str_perm, elem_of_strings_of. split.
    + intros (r & Hc & Hr)%unique_from_sub%list_elem_of_fmap. eauto.
    + intros (r & Hr & Hc).
      destruct (unique_from_str (series j df) v []) as [?%elem_of_nil|H]; [|done|done].
      apply list_elem_of_fmap. exists r. by rewrite Hc.
Qed.

(** X19: over a column that holds a string in every row, the select box
    offers [All] and then the values of the column: every string that
    occurs in the column, each once, in ascending order, and nothing
    else. *)
Theorem options_of_string_column col (df : DataFrame) j :
  locate col df = Unique j →
  (∀ r, r ∈ rows df → ∃ v, cell_at j r = CStr v) →
  ∃ opts,
    options col df = Ok (CStr "All" :: map CStr opts) ∧
    NoDup opts ∧
    Sorted (λ a b, String.leb a b = true) opts ∧
    ∀ v, v ∈ opts ↔ ∃ r, r ∈ rows df ∧ cell_at j r = CStr v.
Proof.
  intros Hl Hall.
  destruct (options_strings col df j Hl Hall) as (Ho & Hn & Hv).
  eexists. split; [exact Ho|]. split; [done|]. split; [|done].
  apply sort_str_sorted.
Qed.

(** X20: over such a column of major groups, every entry of the box other
    than [All] selects a view that is not empty, whose rows all have that
    major group. *)
Theorem option_selects_rows (df : DataFrame) j opts v :
  locate "Major groups" df = Unique j →
  (∀ r, r ∈ rows df → ∃ w, cell_at j r = CStr w) →
  options "Major groups" df = Ok opts →
  CStr v ∈ opts → v ≠ "All" →
  ∃ view, filtered_df v "All" df = Ok view ∧
          rows view ≠ [] ∧
          ∀ r, r ∈ rows view → cell_at j r = CStr v.
Proof.
  intros Hl Hall Ho Hin Hv.
  destruct (options_strings _ df j Hl Hall) as (Ho' & _ & Hopts).
  rewrite Ho in Ho'. injection Ho' as ->.
  apply elem_of_cons in Hin as [[= ->]|Hin]; [done|].
  apply list_elem_of_fmap in Hin as (w & [= <-] & Hw).
  apply Hopts in Hw as (r & Hr & Hc).
  eexists. split; [|split].
  - unfold filtered_df. rewrite (proj2 (String.eqb_neq v "All")) by done.
    rewrite (select_eq_Unique _ _ _ j) by done. reflexivity.
  - simpl. intros Hnil.
    assert (r ∈ List.filter (λ r, eq_str v (cell_at j r)) (rows df)) as Hin.
    { apply list_elem_of_In, List.filter_In. split; [by apply list_elem_of_In|].
      rewrite Hc. simpl. apply String.eqb_refl. }
    rewrite Hnil in Hin. by apply elem_of_nil in Hin.
  - simpl. intros r' [_ Hr']%list_elem_of_In%List.filter_In.
    destruct (cell_at j r') as [s| |]; simpl in Hr'; try done.
    by apply String.eqb_eq in Hr' as ->.
Qed.

Lemma options_mixed col (df : DataFrame) j r1 r2 v :
  locate col df = Unique j →
  r1 ∈ rows df → r2 ∈ rows df →
  cell_at j r1 = CStr v → is_str (cell_at j r2) = false →
  ∃ what, options col df = Raise (TypeError what).
Proof.
  intros Hl H1 H2 Hc1 Hc2. unfold options. rewrite Hl.
  unfold py_sorted.
  assert (forallb is_str (unique (series j df)) = false) as ->.
  { apply not_true_is_false. intros Hall.
    destruct (unique_from_not_str (series j df) []) as (c & Hc & Hn).
    - by intros b ?%elem_of_nil.
    - exists (cell_at j r2). split; [|done]. apply list_elem_of_fmap. eauto.
    - rewrite List.forallb_forall in Hall.
      apply list_elem_of_In, Hall in Hc. congruence. }
  assert (existsb is_str (unique (series j df)) = true) as ->.
  { apply List.existsb_exists. exists (CStr v). split; [|done].
    apply list_elem_of_In.
    destruct (unique_from_str (series j df) v []) as [?%elem_of_nil|H]; [|done|done].
    apply list_elem_of_fmap. exists r1. by rewrite Hc1. }
  by eexists.
Qed.

(** X21: the entries of a select box cannot be built when the column is not
    in the frame (KeyError), nor when it holds a string in one row and a
    missing value or a number in another (the TypeError of [sorted]). *)
Theorem options_failures col (df : DataFrame) :
  (col ∉ columns df → options col df = Raise (KeyError col)) ∧
  (∀ j r1 r2 v,
     locate col df = Unique j →
     r1 ∈ rows df → r2 ∈ rows df →
     cell_at j r1 = CStr v → is_str (cell_at j r2) = false →
     ∃ what, options col df = Raise (TypeError what)).
Proof.
  split.
  - intros Hin. unfold options. by rewrite locate_Absent.
  - intros j r1 r2 v. apply options_mixed.
Qed.

(** X22: the loader keeps a row whose major group is missing when its two
    numeric fields are in order, and the sidebar then fails: with another
    kept row that has a major group, line 64 raises the TypeError and no
    select box is built. *)
Theorem missing_group_breaks_sidebar (raw df : DataFrame) jg ja js r1 r2 v :
  load_and_clean_data parse_num raw = Ok df →
  locate "Major groups" df = Unique jg →
  locate "Average score" df = Unique ja →
  locate "Standard deviation" df = Unique js →
  r1 ∈ rows raw → r2 ∈ rows raw →
  parses_numeric parse_num raw ja r1 = true →
  parses_numeric parse_num raw js r1 = true →
  parses_numeric parse_num raw ja r2 = true →
  parses_numeric parse_num raw js r2 = true →
  cell_at jg r1 = CStr v → cell_at jg r2 = CNaN →
  normal_row parse_num raw ja js r2 ∈ rows df ∧
  ∃ what, sidebar df = Raise (TypeError what).
Proof.
  intros Hload Hg Hla Hls Hr1 Hr2 Ha1 Hs1 Ha2 Hs2 Hc1 Hc2.
  pose proof Hload as (Hnd & ja' & js' & Ha & Hs & ->)%load_and_clean_data_inv.
  rewrite (locate_NoDup _ ja' "Average score") in Hla by done.
  rewrite (locate_NoDup _ js' "Standard deviation") in Hls by done.
  injection Hla as <-. injection Hls as <-.
  pose proof (locate_Unique_lookup _ _ _ Hg) as Hjg. simpl in Hjg.
  assert (jg < List.length (columns raw)) as Hlt.
  { apply lookup_lt_Some in Hjg. by rewrite length_map in Hjg. }
  assert (jg ≠ ja') as Hga by (intros ->; congruence).
  assert (jg ≠ js') as Hgs by (intros ->; congruence).
  pose proof (elem_of_loaded_intro parse_num raw ja' js' r1 Ha Hs Hr1 Ha1 Hs1) as Hin1.
  pose proof (elem_of_loaded_intro parse_num raw ja' js' r2 Ha Hs Hr2 Ha2 Hs2) as Hin2.
  split; [done|].
  assert (dtype_is_object jg raw = true) as Hobj
    by (eapply dtype_is_object_intro; [exact Hr1|exact Hc1]).
  destruct (options_mixed "Major groups" _ jg _ _ (PyStr.clean_str v) Hg Hin1 Hin2)
    as [what Hw].
  - rewrite cell_at_normal_row_other, cell_at_clean_row by done.
    unfold trimmed. by rewrite Hobj, Hc1.
  - rewrite cell_at_normal_row_other, cell_at_clean_row by done.
    unfold trimmed. by rewrite Hobj, Hc2.
  - exists what. unfold sidebar.
    fold (options "Major groups" (loaded parse_num raw ja' js')).
    by rewrite Hw.
Qed.

End SidebarFacts.

(** ** The page behind the sidebar *)

Section PageOutcomes.

Context {num : Type}.
Context (parse_num : string → option num).
Context (num_leb : num → num → bool).
Context (sorted_floats : list (cell num) → list (cell num)).

Local Abbreviation DataFrame := (DataFrame num).

Lemma options_Ok_located col (df : DataFrame) opts :
  options num_leb sorted_floats col df = Ok opts → ∃ j, locate col df = Unique j.
Proof.
  unfold options. destruct (locate col df) as [|j|]; try done. by exists j.
Qed.

(** X23: once the loader has returned and the two select boxes are built,
    the pandas statements that follow cannot raise: whatever the two
    selections, the filter of lines 70-74 returns a view, and the ranking
    of line 82 and the counts of line 105 are computed from it. *)
Theorem page_after_sidebar (raw df : DataFrame) boxes sg se :
  load_and_clean_data parse_num raw = Ok df →
  sidebar num_leb sorted_floats df = Ok boxes →
  ∃ view ch,
    filtered_df sg se df = Ok view ∧
    derive num_leb view = Ok ch ∧
    scatter_df ch = view.
Proof.
  intros Hload Hside. unfold sidebar in Hside.
  apply bind_Ok_inv in Hside as (groups & [jg Hg]%options_Ok_located & Hside).
  apply bind_Ok_inv in Hside as (levels & [je He]%options_Ok_located & _).
  pose proof (filtered_df_both sg se df jg je Hg He) as Hview.
  destruct (view_scores parse_num _ _ _ _ _ Hload Hview) as (ja & _ & Hloc & Hobj).
  eexists. eexists. split; [exact Hview|].
  unfold derive, nlargest, value_counts. rewrite Hloc, Hobj.
  rewrite (locate_columns df (apply_both sg se jg je df) "mean_exposure_level") by done.
  rewrite He. split; reflexivity.
Qed.

End PageOutcomes.

(** * The model on concrete files *)

Import Sample.

Lemma Qle_bool_total (x y : Q) : Qle_bool x y = true ∨ Qle_bool y x = true.
Proof.
  rewrite !Qle_bool_iff. destruct (Qlt_le_dec x y) as [H|H]; [left|by right].
  by apply Qlt_le_weak.
Qed.

Lemma Qle_bool_trans (x y z : Q) :
  Qle_bool x y = true → Qle_bool y z = true → Qle_bool x z = true.
Proof. rewrite !Qle_bool_iff. apply Qle_trans. Qed.

Example clean_str_ex1 : PyStr.clean_str ("  " +:+ quoted "Engineer" +:+ "  ") = "Engineer".
Proof. reflexivity. Qed.

(** The example scenario of the specification. *)
Example example_loads : load_and_clean_data parse_decimal example_raw = Ok example_raw.
Proof. reflexivity. Qed.

Example example_clerical :
  filtered_df "Clerical" "All" example_raw = Ok clerical_view.
Proof. reflexivity. Qed.

Example example_derive :
  derive Qle_bool clerical_view =
    Ok {| top_10_df := clerical_view;
          exposure_counts := [(CStr "gradient 4", 2)];
          scatter_df := clerical_view |}.
Proof. reflexivity. Qed.

Example dirty_loads : load_and_clean_data parse_decimal dirty_raw = Ok dirty_clean.
Proof. reflexivity. Qed.

(** In a score column of mixed type the [.str] methods of line 40 make a
    missing value of the number, and the row goes. *)
Example mixed_loads :
  ¬ uniform mixed_raw 3 ∧
  (rows <$> load_and_clean_data parse_decimal mixed_raw)
  = Ok [ (0, [CStr "Clerical"; CStr "Clerk"; CStr "gradient 4"; CNum (9 # 10)%Q; CNum (5 # 100)%Q]) ].
Proof.
  split; [|reflexivity].
  intros H.
  apply (H eq_refl (1, [CStr "Clerical"; CStr "Typist"; CStr "gradient 4";
                        CNum (85 # 100)%Q; CNum (4 # 100)%Q]) (85 # 100)%Q);
    [|reflexivity].
  apply elem_of_cons. right. apply elem_of_cons. by left.
Qed.

(** C2, on the failing input: of the three rows of [chunked_raw] one has a
    malformed numeric field, row 1 with the score [unknown]; rows 0 and 2
    have a score and a deviation that are numeric, the string 0.9 and the
    numbers 0.85, 0.05 and 0.04.  The loader returns one row, not two: row
    2 is lost, because its score 0.85 is a number in a column that also
    holds strings, and the string methods of line 40 make a missing value
    of it before line 47 drops the rows with missing values. *)
Theorem C2_numeric_row_dropped :
  locate "Average score" chunked_raw = Unique 3 ∧
  locate "Standard deviation" chunked_raw = Unique 4 ∧
  List.filter (λ r, negb (numeric_field parse_decimal (cell_at 3 r)
                          && numeric_field parse_decimal (cell_at 4 r)))
    (rows chunked_raw)
  = [ (1, [CStr "Professional"; CStr "Analyst"; CStr "gradient 1"; CStr "unknown";
           CNum (1 # 10)%Q]) ] ∧
  numeric_field parse_decimal
    (cell_at 3 (2, [CStr "Clerical"; CStr "Typist"; CStr "gradient 4";
                    CNum (85 # 100)%Q; CNum (4 # 100)%Q])) = true ∧
  numeric_field parse_decimal
    (cell_at 4 (2, [CStr "Clerical"; CStr "Typist"; CStr "gradient 4";
                    CNum (85 # 100)%Q; CNum (4 # 100)%Q])) = true ∧
  load_and_clean_data parse_decimal chunked_raw
  = Ok {| columns := labels;
          rows := [ (0, [CStr "Clerical"; CStr "Clerk"; CStr "gradient 4";
                         CNum (9 # 10)%Q; CNum (5 # 100)%Q]) ] |} ∧
  List.length (rows chunked_raw) - 1 = 2.
Proof. repeat split; reflexivity. Qed.

(** C1 on a session with one earlier turn and the service down. *)
Lemma C1_witness :
  let turn := {| id := "id-1"; query := "Which jobs are exposed?";
                 answer := error_prefix +:+ "timed out" |} in
  chat render grok_down "id-1" example_raw "Which jobs are exposed?" [earlier_turn]
    = Completed ([earlier_turn] ++ [turn])
        [context render example_raw "Which jobs are exposed?"] ∧
  List.length (history_of (chat render grok_down "id-1" example_raw
                             "Which jobs are exposed?" [earlier_turn]))
    = List.length [earlier_turn] + 1 ∧
  take (List.length [earlier_turn])
    (history_of (chat render grok_down "id-1" example_raw
                   "Which jobs are exposed?" [earlier_turn])) = [earlier_turn] ∧
  last (history_of (chat render grok_down "id-1" example_raw
                      "Which jobs are exposed?" [earlier_turn])) = Some turn.
Proof.
  apply (C1_failure_isolated render grok_down "id-1" example_raw
           "Which jobs are exposed?" [earlier_turn] timeout_error).
  - discriminate.
  - reflexivity.
  - reflexivity.
Defined.

(** X24 on the file with quoting and a malformed score. *)
Lemma rows_retained_iff_numeric_witness :
  ∃ ja js,
    columns dirty_clean !! ja = Some "Average score" ∧
    columns dirty_clean !! js = Some "Standard deviation" ∧
    rows dirty_clean =
      map (normal_row parse_decimal dirty_raw ja js)
        (List.filter (λ r, parses_numeric parse_decimal dirty_raw ja r
                           && parses_numeric parse_decimal dirty_raw js r)
           (rows dirty_raw)) ∧
    (∀ r, r ∈ rows dirty_raw →
       (normal_row parse_decimal dirty_raw ja js r ∈ rows dirty_clean ↔
        parses_numeric parse_decimal dirty_raw ja r = true ∧
        parses_numeric parse_decimal dirty_raw js r = true)) ∧
    List.length (rows dirty_clean) =
      List.length (rows dirty_raw)
      - List.length (List.filter (malformed parse_decimal dirty_raw ja js) (rows dirty_raw)) ∧
    (∀ j r, uniform dirty_raw j → r ∈ rows dirty_raw →
       parses_numeric parse_decimal dirty_raw j r
       = numeric_field parse_decimal (cell_at j r)).
Proof.
  apply (rows_retained_iff_numeric parse_decimal dirty_raw dirty_clean).
  reflexivity.
Defined.

(** C10 on the same file: labels 0 and 3 of 0, 1, 2, 3 are left. *)
Lemma C10_witness :
  ∃ ja js,
    rows dirty_clean `sublist_of` map (normal_row parse_decimal dirty_raw ja js) (rows dirty_raw) ∧
    map fst (rows dirty_clean) `sublist_of` map fst (rows dirty_raw) ∧
    (StronglySorted lt (map fst (rows dirty_raw)) →
     StronglySorted lt (map fst (rows dirty_clean))).
Proof.
  apply (C10_order_preserved parse_decimal dirty_raw dirty_clean).
  reflexivity.
Defined.

(** C6 on the same file. *)
Lemma C6_witness :
  load_and_clean_data parse_decimal dirty_clean = Ok dirty_clean ↔ settled dirty_clean.
Proof.
  apply (C6_idempotent_iff_settled parse_decimal dirty_raw dirty_clean).
  reflexivity.
Defined.

(** C6 as stated fails on a job title in two pairs of quotes: the loader
    takes one pair off, and the other when it runs on its own result. *)
Lemma C6_counterexample :
  ¬ (∀ raw df : DataFrame Q,
       load_and_clean_data parse_decimal raw = Ok df →
       load_and_clean_data parse_decimal df = Ok df).
Proof.
  intros H. specialize (H nested_raw nested_once eq_refl).
  vm_compute in H. discriminate H.
Qed.

(** C3 on the example under the major group [Clerical]. *)
Lemma C3_witness :
  ∃ j top,
    columns clerical_view !! j = Some "Average score" ∧
    nlargest Qle_bool 10 "Average score" clerical_view = Ok top ∧
    columns top = columns clerical_view ∧
    List.length (rows top) = min (List.length (rows clerical_view)) 10 ∧
    StronglySorted (ge_at Qle_bool j) (rows top) ∧
    (∀ x, List.filter (tie Qle_bool j x) (rows top)
            `prefix_of` List.filter (tie Qle_bool j x) (rows clerical_view)) ∧
    rows top ⊆+ rows clerical_view ∧
    ∃ rest, rows top ++ rest ≡ₚ rows clerical_view ∧
            ∀ a b, a ∈ rows top → b ∈ rest → ge_at Qle_bool j a b.
Proof.
  apply (C3_top_10 parse_decimal Qle_bool Qle_bool_total Qle_bool_trans
           example_raw example_raw "Clerical" "All" clerical_view).
  - reflexivity.
  - reflexivity.
Defined.

(** C3 as stated fails on the whole example: the ranking puts row 2 before
    row 1, so it is no subsequence of the view. *)
Lemma C3_counterexample :
  load_and_clean_data parse_decimal example_raw = Ok example_raw ∧
  filtered_df "All" "All" example_raw = Ok example_raw ∧
  nlargest Qle_bool 10 "Average score" example_raw = Ok example_top ∧
  ¬ rows example_top `sublist_of` rows example_raw.
Proof.
  split; [reflexivity|]. split; [reflexivity|]. split; [reflexivity|].
  intros H. apply (fmap_sublist fst) in H.
  vm_compute in H.
  repeat match goal with
         | H : sublist _ _ |- _ => inversion H; clear H; subst
         end.
Qed.

(** C4 on the example. *)
Lemma C4_witness :
  (filtered_df "Clerical" "All" example_raw ≫= filtered_df "All" "gradient 4")
    = filtered_df "Clerical" "gradient 4" example_raw ∧
  filtered_df "Clerical" "gradient 4" example_raw
    = Ok (apply_both "Clerical" "gradient 4" 0 2 example_raw).
Proof.
  destruct (C4_filters_compose "Clerical" "gradient 4" example_raw) as [Hc Hand].
  split; [exact Hc|].
  apply (Hand 0 2); reflexivity.
Defined.

(** C7 on the example: no row has the major group [Managers]. *)
Lemma C7_witness :
  let empty := {| columns := columns example_raw; rows := [] |} in
  filtered_df "Managers" "All" example_raw = Ok empty ∧
  derive Qle_bool empty =
    Ok {| top_10_df := empty; exposure_counts := []; scatter_df := empty |}.
Proof.
  apply (C7_empty_selection parse_decimal Qle_bool example_raw example_raw
           "Managers" "All" 0 2).
  - reflexivity.
  - reflexivity.
  - reflexivity.
  - left. split; [discriminate|].
    intros r Hr. vm_compute in Hr.
    repeat (apply elem_of_cons in Hr as [->|Hr]; [discriminate|]).
    by apply elem_of_nil in Hr.
Defined.

(** C5 on a file that carries the major group [Engineer] in three forms. *)
Lemma C5_witness :
  ∃ ja js,
    locate "Average score" engineer_clean = Unique ja ∧
    locate "Standard deviation" engineer_clean = Unique js ∧
    (∀ r, r ∈ rows engineer_clean →
       ∃ r0, r0 ∈ rows engineer_raw ∧
             r = normal_row parse_decimal engineer_raw ja js r0 ∧
             ∀ k s, k < List.length (columns engineer_raw) → k ≠ ja → k ≠ js →
                    cell_at k r0 = CStr s →
                    cell_at k r = CStr (PyStr.clean_str s)) ∧
    (∀ r0 k s,
       r0 ∈ rows engineer_raw → k < List.length (columns engineer_raw) →
       k ≠ ja → k ≠ js → cell_at k r0 = CStr s →
       cell_at k (normal_row parse_decimal engineer_raw ja js r0)
         = CStr (PyStr.clean_str s)) ∧
    (∀ jg r0 s v,
       locate "Major groups" engineer_clean = Unique jg →
       r0 ∈ rows engineer_raw →
       parses_numeric parse_decimal engineer_raw ja r0 = true →
       parses_numeric parse_decimal engineer_raw js r0 = true →
       cell_at jg r0 = CStr s →
       SpecText.bare v → SpecText.variant v s → v ≠ "All" →
       ∃ view, filtered_df v "All" engineer_clean = Ok view ∧
               normal_row parse_decimal engineer_raw ja js r0 ∈ rows engineer_clean ∧
               normal_row parse_decimal engineer_raw ja js r0 ∈ rows view).
Proof.
  apply (proj2 (proj2 (proj2 (proj2 (C5_cells_trimmed_and_dequoted parse_decimal))))
           engineer_raw engineer_clean).
  reflexivity.
Defined.

Example engineer_filter :
  load_and_clean_data parse_decimal engineer_raw = Ok engineer_clean ∧
  filtered_df "Engineer" "All" engineer_clean = Ok engineer_clean.
Proof. split; reflexivity. Qed.

(** C5 as stated fails where the white space is inside the quotes: the two
    values differ in quoting and white space only, and are cleaned to
    different strings. *)
Lemma C5_counterexample :
  SpecText.peel (quoted " Engineer ") = SpecText.peel "Engineer" ∧
  PyStr.clean_str (quoted " Engineer ") = " Engineer " ∧
  PyStr.clean_str "Engineer" = "Engineer" ∧
  ¬ (∀ s1 s2, SpecText.peel s1 = SpecText.peel s2 →
              PyStr.clean_str s1 = PyStr.clean_str s2).
Proof.
  split; [reflexivity|]. split; [reflexivity|]. split; [reflexivity|].
  intros H. specialize (H (quoted " Engineer ") "Engineer" eq_refl).
  vm_compute in H. discriminate H.
Qed.

(** C8 as stated fails on a query of one space: it is blank, yet the
    request is sent and a turn is appended. *)
Lemma C8_counterexample :
  SpecText.blank " " = true ∧
  chat render grok_up "id-1" example_raw " " [] =
    Completed [{| id := "id-1"; query := " "; answer := "Clerks." |}]
      [context render example_raw " "] ∧
  ¬ (∀ q, SpecText.blank q = true →
          chat render grok_up "id-1" example_raw q [] = Completed [] []).
Proof.
  split; [reflexivity|]. split; [reflexivity|].
  intros H. specialize (H " " eq_refl). discriminate H.
Qed.

(** C9 on the example, with the view narrowed to one major group. *)
Lemma C9_witness :
  ∃ p,
    run parse_decimal Qle_bool render example_raw "Clerical" "All"
      "Which jobs are exposed?" grok_up "id-1" [] = Ok p ∧
    load_and_clean_data parse_decimal example_raw = Ok (page_df p) ∧
    sent_of (page_chat p) =
      [preamble +:+ render (head 5 (page_df p)) +:+ question_label
       +:+ "Which jobs are exposed?" +:+ context_end] ∧
    columns (head 5 (page_df p)) = columns (page_df p) ∧
    rows (head 5 (page_df p)) = take 5 (rows (page_df p)) ∧
    ∀ sg' se' p',
      run parse_decimal Qle_bool render example_raw sg' se'
        "Which jobs are exposed?" grok_up "id-1" [] = Ok p' →
      sent_of (page_chat p') = sent_of (page_chat p).
Proof.
  eexists. split; [reflexivity|].
  apply (C9_context_of_request parse_decimal Qle_bool render example_raw
           "Clerical" "All" "Which jobs are exposed?" grok_up "id-1" []).
  - reflexivity.
  - discriminate.
Defined.

(** ** The further properties on the examples *)

(** X4 on a run interrupted from the keyboard. *)
Lemma chat_propagates_witness :
  chat render grok_interrupted "id-1" example_raw "Which jobs are exposed?" [earlier_turn]
  = Propagated interrupt [earlier_turn]
      [context render example_raw "Which jobs are exposed?"].
Proof.
  apply (chat_propagates render grok_interrupted "id-1" example_raw
           "Which jobs are exposed?" [earlier_turn] interrupt).
  split; [discriminate|]. repeat split.
Defined.


(** X11 on the file with quoting and a malformed score. *)
Lemma loaded_scores_are_numbers_witness :
  ∃ ja js,
    locate "Average score" dirty_clean = Unique ja ∧
    locate "Standard deviation" dirty_clean = Unique js ∧
    (∀ r, r ∈ rows dirty_clean → ∃ x y, cell_at ja r = CNum x ∧ cell_at js r = CNum y) ∧
    dtype_is_object ja dirty_clean = false ∧ dtype_is_object js dirty_clean = false.
Proof.
  apply (loaded_scores_are_numbers parse_decimal dirty_raw dirty_clean).
  reflexivity.
Defined.

(** X12 on the example under the major group [Clerical]. *)
Lemma view_is_subsequence_witness :
  columns clerical_view = columns example_raw ∧
  rows clerical_view `sublist_of` rows example_raw ∧
  List.length (rows clerical_view) ≤ List.length (rows example_raw) ∧
  ("Clerical" = "All" → "All" = "All" → clerical_view = example_raw).
Proof.
  apply (view_is_subsequence "Clerical" "All" example_raw clerical_view).
  reflexivity.
Defined.

(** X13 on the example with both boxes set. *)
Lemma filter_twice_witness :
  filtered_df "Clerical" "gradient 4" clerical_view = Ok clerical_view.
Proof.
  apply (filter_twice "Clerical" "gradient 4" example_raw clerical_view).
  reflexivity.
Defined.

(** X14 on the example. *)
Lemma filters_commute_witness :
  (filtered_df "All" "gradient 4" example_raw ≫= filtered_df "Clerical" "All")
  = filtered_df "Clerical" "gradient 4" example_raw.
Proof.
  apply (filters_commute "Clerical" "gradient 4" example_raw 0 2); reflexivity.
Defined.

(** X15 on the example under the major group [Clerical]. *)
Lemma top_10_keeps_small_views_witness :
  ∃ top, nlargest Qle_bool 10 "Average score" clerical_view = Ok top ∧
         rows top ≡ₚ rows clerical_view.
Proof.
  apply (top_10_keeps_small_views parse_decimal Qle_bool example_raw example_raw
           "Clerical" "All" clerical_view).
  - reflexivity.
  - reflexivity.
  - simpl. lia.
Defined.

(** X16 on the whole example. *)
Lemma top_10_of_top_10_witness :
  nlargest Qle_bool 10 "Average score" example_top = Ok example_top.
Proof.
  apply (top_10_of_top_10 parse_decimal Qle_bool Qle_bool_total Qle_bool_trans
           example_raw example_raw "All" "All" example_raw example_top);
    reflexivity.
Defined.

(** X17 on the exposure levels of the example. *)
Lemma value_counts_entries_witness :
  ∃ t, value_counts Qle_bool "mean_exposure_level" example_raw = Ok t ∧
       ∀ v k, (CStr v, k) ∈ t ↔
              k = List.length (List.filter (λ r, eq_str v (cell_at 2 r)) (rows example_raw))
              ∧ 0 < k.
Proof.
  apply (value_counts_entries Qle_bool "mean_exposure_level" example_raw 2).
  reflexivity.
Defined.

(** X18 on the exposure levels of the example. *)
Lemma value_counts_ordered_and_total_witness :
  ∃ t, value_counts Qle_bool "mean_exposure_level" example_raw = Ok t ∧
       StronglySorted (λ a b, b.2 ≤ a.2) t ∧
       NoDup (str_labels t) ∧
       sum_list (map snd t)
       = List.length (List.filter (λ r, notna (cell_at 2 r)) (rows example_raw)).
Proof.
  apply (value_counts_ordered_and_total Qle_bool "mean_exposure_level" example_raw 2).
  reflexivity.
Defined.

(** X19 on the major groups of the example. *)
Lemma options_of_string_column_witness :
  ∃ opts,
    options Qle_bool sorted_as_is "Major groups" example_raw
    = Ok (CStr "All" :: map CStr opts) ∧
    NoDup opts ∧
    Sorted (λ a b, String.leb a b = true) opts ∧
    ∀ v, v ∈ opts ↔ ∃ r, r ∈ rows example_raw ∧ cell_at 0 r = CStr v.
Proof.
  apply (options_of_string_column Qle_bool sorted_as_is "Major groups" example_raw 0).
  - reflexivity.
  - intros r Hr.
    repeat (apply elem_of_cons in Hr as [->|Hr]; [eexists; reflexivity|]).
    by apply elem_of_nil in Hr.
Defined.

(** X20 on the example: the entry [Professional] of the box. *)
Lemma option_selects_rows_witness :
  ∃ view, filtered_df "Professional" "All" example_raw = Ok view ∧
          rows view ≠ [] ∧
          ∀ r, r ∈ rows view → cell_at 0 r = CStr "Professional".
Proof.
  apply (option_selects_rows Qle_bool sorted_as_is example_raw 0
           [CStr "All"; CStr "Clerical"; CStr "Professional"] "Professional").
  - reflexivity.
  - intros r Hr.
    repeat (apply elem_of_cons in Hr as [->|Hr]; [eexists; reflexivity|]).
    by apply elem_of_nil in Hr.
  - reflexivity.
  - apply elem_of_cons. right. apply elem_of_cons. right.
    apply elem_of_cons. by left.
  - discriminate.
Defined.

(** X22 on a file with one major group missing. *)
Lemma missing_group_breaks_sidebar_witness :
  normal_row parse_decimal gap_raw 3 4
    (1, [CNaN; CStr "Analyst"; CStr "gradient 1"; CNum (3 # 10)%Q; CNum (1 # 10)%Q])
    ∈ rows gap_raw ∧
  ∃ what, sidebar Qle_bool sorted_as_is gap_raw = Raise (TypeError what).
Proof.
  apply (missing_group_breaks_sidebar parse_decimal Qle_bool sorted_as_is
           gap_raw gap_raw 0 3 4
           (0, [CStr "Clerical"; CStr "Clerk"; CStr "gradient 4"; CNum (9 # 10)%Q; CNum (5 # 100)%Q])
           (1, [CNaN; CStr "Analyst"; CStr "gradient 1"; CNum (3 # 10)%Q; CNum (1 # 10)%Q])
           "Clerical"); try reflexivity.
  - apply elem_of_cons. by left.
  - apply elem_of_cons. right. apply elem_of_cons. by left.
Defined.

(** X9 on the file with quoting and a malformed score. *)
Lemma loaded_frame_labels_witness :
  columns dirty_clean = map PyStr.clean_header (columns dirty_raw) ∧
  NoDup (columns dirty_clean) ∧
  "Average score" ∈ columns dirty_clean ∧
  "Standard deviation" ∈ columns dirty_clean ∧
  List.length (rows dirty_clean) ≤ List.length (rows dirty_raw).
Proof.
  apply (loaded_frame_labels parse_decimal dirty_raw dirty_clean).
  reflexivity.
Defined.


(** X21 on a frame without the exposure levels and on one with a major
    group missing. *)
Lemma options_failures_witness :
  options Qle_bool sorted_as_is "mean_exposure_level" no_score_raw
  = Raise (KeyError "mean_exposure_level") ∧
  ∃ what, options Qle_bool sorted_as_is "Major groups" gap_raw = Raise (TypeError what).
Proof.
  split.
  - apply (proj1 (options_failures Qle_bool sorted_as_is "mean_exposure_level" no_score_raw)).
    apply (bool_decide_unpack _). vm_compute. reflexivity.
  - apply (proj2 (options_failures Qle_bool sorted_as_is "Major groups" gap_raw) 0
             (0, [CStr "Clerical"; CStr "Clerk"; CStr "gradient 4"; CNum (9 # 10)%Q; CNum (5 # 100)%Q])
             (1, [CNaN; CStr "Analyst"; CStr "gradient 1"; CNum (3 # 10)%Q; CNum (1 # 10)%Q])
             "Clerical"); try reflexivity.
    + apply elem_of_cons. by left.
    + apply elem_of_cons. right. apply elem_of_cons. by left.
Defined.

(** X23 on the example: a selection that no row matches. *)
Lemma page_after_sidebar_witness :
  ∃ view ch,
    filtered_df "Managers" "gradient 4" example_raw = Ok view ∧
    derive Qle_bool view = Ok ch ∧
    scatter_df ch = view.
Proof.
  apply (page_after_sidebar parse_decimal Qle_bool sorted_as_is example_raw example_raw
           ([CStr "All"; CStr "Clerical"; CStr "Professional"],
            [CStr "All"; CStr "gradient 1"; CStr "gradient 4"])
           "Managers" "gradient 4"); reflexivity.
Defined.
